(** * Query validation of paulmanoni/graph (graphql_validation.go)

    A shallow embedding of the four document analyzers
    (calculateQueryDepth, countAliases, calculateQueryComplexity,
    hasIntrospection) and of the policy function ValidateGraphQLQuery,
    followed by the properties the specification states about them.

    Go's [int] is modelled as a 64-bit two's-complement integer carried
    in [Z]; every addition and multiplication of the source wraps.
    The JSON decoder and the GraphQL parser are external packages
    (encoding/json, graphql-go); ValidateGraphQLQuery takes them as
    section variables.

    The second half of the definitions embeds the code around the
    validator: the resolver helpers of utils.go, the request closures
    of New and NewHTTP and the message sanitizer of handler.go, the
    schema builder, and the JSON methods of JSONTime.  Functions of the
    Go standard library and of graphql-go are section variables there
    too. *)

From Stdlib Require Import ZArith Lia List Ascii.
From stdpp Require Import base strings gmap pretty.
Import ListNotations.

Local Open Scope Z_scope.

#[local] Set Warnings "-register-all".

(** ** Go integers *)

Module GoInt.

Definition modulus : Z := 2 ^ 64.
Definition min_int : Z := - 2 ^ 63.
Definition max_int : Z := 2 ^ 63 - 1.

(** The value an [int] holds after an operation whose exact result is [z]. *)
Definition wrap (z : Z) : Z := (z + 2 ^ 63) mod modulus - 2 ^ 63.

Definition add (a b : Z) : Z := wrap (a + b).
Definition mul (a b : Z) : Z := wrap (a * b).

Definition in_range (z : Z) : Prop := min_int <= z <= max_int.

End GoInt.

(** ** The syntax tree (graphql-go, language/ast), restricted to the
       members the analyzers read *)

Record Name : Type := mkName { Value : string }.

(** [ast.Selection] has three implementations.  A [*ast.SelectionSet]
    member may be nil, hence the [option]. *)
Inductive Selection : Type :=
| Field (alias name : option Name) (selectionSet : option SelectionSet)
| InlineFragment (selectionSet : option SelectionSet)
| FragmentSpread (name : option Name)
with SelectionSet : Type :=
| mkSelectionSet (Selections : list Selection).

(** [ast.Node] as the analyzers dispatch on it: a document, the two
    definitions that own a selection set, and every other node kind
    (type-system definitions and the like), which no [case] matches. *)
Inductive Node : Type :=
| Document (Definitions : list Node)
| OperationDefinition (selectionSet : option SelectionSet)
| FragmentDefinition (selectionSet : option SelectionSet)
| OtherNode.

(** ** Depth *)

Fixpoint calculateSelectionSetDepth (selectionSet : SelectionSet)
    (currentDepth : Z) {struct selectionSet} : Z :=
  match selectionSet with
  | mkSelectionSet selections =>
      fold_left
        (fun maxDepth selection =>
           let depth :=
             match selection with
             | Field _ _ (Some ss) =>
                 calculateSelectionSetDepth ss (GoInt.add currentDepth 1)
             | Field _ _ None => GoInt.add currentDepth 1
             | InlineFragment (Some ss) =>
                 calculateSelectionSetDepth ss currentDepth
             | InlineFragment None => 0
             | FragmentSpread _ => currentDepth
             end in
           if depth >? maxDepth then depth else maxDepth)
        selections currentDepth
  end.

Fixpoint calculateQueryDepth (node : Node) (currentDepth : Z) : Z :=
  match node with
  | Document definitions =>
      fold_left
        (fun maxDepth def =>
           let depth := calculateQueryDepth def currentDepth in
           if depth >? maxDepth then depth else maxDepth)
        definitions currentDepth
  | OperationDefinition (Some ss) =>
      let depth := calculateSelectionSetDepth ss currentDepth in
      if depth >? currentDepth then depth else currentDepth
  | FragmentDefinition (Some ss) =>
      let depth := calculateSelectionSetDepth ss currentDepth in
      if depth >? currentDepth then depth else currentDepth
  | _ => currentDepth
  end.

(** ** Aliases *)

(** [sel.Alias != nil] and [sel.Alias.Value] is not the empty string. *)
Definition has_alias (alias : option Name) : bool :=
  match alias with
  | Some a => negb (String.eqb (Value a) EmptyString)
  | None => false
  end.

Fixpoint countSelectionSetAliases (selectionSet : SelectionSet) : Z :=
  match selectionSet with
  | mkSelectionSet selections =>
      fold_left
        (fun count selection =>
           match selection with
           | Field alias _ ss =>
               let count := if has_alias alias then GoInt.add count 1 else count in
               match ss with
               | Some ss' => GoInt.add count (countSelectionSetAliases ss')
               | None => count
               end
           | InlineFragment (Some ss') =>
               GoInt.add count (countSelectionSetAliases ss')
           | InlineFragment None => count
           | FragmentSpread _ => count
           end)
        selections 0
  end.

Fixpoint countAliases (node : Node) : Z :=
  match node with
  | Document definitions =>
      fold_left (fun count def => GoInt.add count (countAliases def))
        definitions 0
  | OperationDefinition (Some ss) => GoInt.add 0 (countSelectionSetAliases ss)
  | FragmentDefinition (Some ss) => GoInt.add 0 (countSelectionSetAliases ss)
  | _ => 0
  end.

(** ** Complexity *)

Fixpoint calculateSelectionSetComplexity (selectionSet : SelectionSet)
    (multiplier : Z) {struct selectionSet} : Z :=
  match selectionSet with
  | mkSelectionSet selections =>
      fold_left
        (fun complexity selection =>
           match selection with
           | Field _ _ ss =>
               let complexity := GoInt.add complexity multiplier in
               match ss with
               | Some ss' =>
                   let nestedComplexity :=
                     calculateSelectionSetComplexity ss' (GoInt.mul multiplier 2) in
                   GoInt.add complexity nestedComplexity
               | None => complexity
               end
           | InlineFragment (Some ss') =>
               GoInt.add complexity (calculateSelectionSetComplexity ss' multiplier)
           | InlineFragment None => complexity
           | FragmentSpread _ => GoInt.add complexity multiplier
           end)
        selections 0
  end.

Fixpoint calculateQueryComplexity (node : Node) (multiplier : Z) : Z :=
  match node with
  | Document definitions =>
      fold_left
        (fun complexity def =>
           GoInt.add complexity (calculateQueryComplexity def multiplier))
        definitions 0
  | OperationDefinition (Some ss) =>
      GoInt.add 0 (calculateSelectionSetComplexity ss multiplier)
  | FragmentDefinition (Some ss) =>
      GoInt.add 0 (calculateSelectionSetComplexity ss multiplier)
  | _ => 0
  end.

(** ** Introspection *)

(** [sel.Name != nil] and the name is one of the two blocked ones. *)
Definition is_introspection_name (name : option Name) : bool :=
  match name with
  | Some n => String.eqb (Value n) "__schema" || String.eqb (Value n) "__type"
  | None => false
  end.

(** The loops return [true] at the first hit and [false] when they run
    out: [existsb]. *)
Fixpoint hasIntrospectionInSelectionSet (selectionSet : SelectionSet) : bool :=
  match selectionSet with
  | mkSelectionSet selections =>
      existsb
        (fun selection =>
           match selection with
           | Field _ name ss =>
               is_introspection_name name
               || match ss with
                  | Some ss' => hasIntrospectionInSelectionSet ss'
                  | None => false
                  end
           | InlineFragment (Some ss') => hasIntrospectionInSelectionSet ss'
           | InlineFragment None => false
           | FragmentSpread _ => false
           end)
        selections
  end.

Fixpoint hasIntrospection (node : Node) : bool :=
  match node with
  | Document definitions => existsb hasIntrospection definitions
  | OperationDefinition (Some ss) => hasIntrospectionInSelectionSet ss
  | FragmentDefinition (Some ss) => hasIntrospectionInSelectionSet ss
  | _ => false
  end.

(** ** The policy *)

(** What [json.Unmarshal] stores in an [interface{}]. *)
Inductive json_value : Type :=
| JNull
| JBool (b : bool)
| JNumber (literal : string)
| JString (s : string)
| JArray (elements : list json_value)
| JObject (members : list (string * json_value)).

(** The four [fmt.Errorf] values of ValidateGraphQLQuery, with the
    arguments of their format strings. *)
Inductive error : Type :=
| IntrospectionRejected
| DepthExceeded (maxDepth depth : Z)
| AliasLimitExceeded (maxAliases aliasCount : Z)
| ComplexityExceeded (maxComplexity complexity : Z).

(** [err.Error()]: the formatted message. *)
Definition Error (e : error) : string :=
  match e with
  | IntrospectionRejected => "GraphQL introspection is disabled"
  | DepthExceeded maxDepth depth =>
      "query depth exceeds maximum allowed depth of " +:+ pretty maxDepth
      +:+ " (actual: " +:+ pretty depth +:+ ")"
  | AliasLimitExceeded maxAliases aliasCount =>
      "query contains too many aliases. Maximum allowed: " +:+ pretty maxAliases
      +:+ ", found: " +:+ pretty aliasCount
  | ComplexityExceeded maxComplexity complexity =>
      "query complexity exceeds maximum allowed complexity of "
      +:+ pretty maxComplexity +:+ " (actual: " +:+ pretty complexity +:+ ")"
  end.

Section Validation.

(** [graphql.Schema] is opaque here; the argument is a pointer. *)
Context {Schema : Type}.

(** [json.Unmarshal([]byte(s), &queryData)] with
    [queryData map[string]interface{}]: [None] when it returns an
    error, otherwise the decoded map. *)
Variable json_Unmarshal : string -> option (gmap string json_value).

(** [parser.Parse] on a source with the given body: [None] on a
    syntax error, otherwise the definitions of the document. *)
Variable parser_Parse : string -> option (list Node).

Definition ValidateGraphQLQuery (queryString : string)
    (schema : option Schema) : option error :=
  if String.eqb queryString EmptyString then None
  else
    let queryString :=
      match json_Unmarshal queryString with
      | Some queryData =>
          match queryData !! ("query" : string) with
          | Some (JString query) => query
          | _ => queryString
          end
      | None => queryString
      end in
    match parser_Parse queryString with
    | None => None
    | Some definitions =>
        let doc := Document definitions in
        if hasIntrospection doc then Some IntrospectionRejected
        else
          let maxDepth := 10 in
          let depth := calculateQueryDepth doc 0 in
          if depth >? maxDepth then Some (DepthExceeded maxDepth depth)
          else
            let maxAliases := 4 in
            let aliasCount := countAliases doc in
            if aliasCount >? maxAliases
            then Some (AliasLimitExceeded maxAliases aliasCount)
            else
              let maxComplexity := 200 in
              let complexity := calculateQueryComplexity doc 1 in
              if complexity >? maxComplexity
              then Some (ComplexityExceeded maxComplexity complexity)
              else None
    end.

End Validation.

(** [ast.Selection.GetSelectionSet]: the nested selection set of a
    selection, if it has one. *)
Definition GetSelectionSet (selection : Selection) : option SelectionSet :=
  match selection with
  | Field _ _ ss => ss
  | InlineFragment ss => ss
  | FragmentSpread _ => None
  end.


(** ** The loop bodies, named

    What one iteration of each [for ... range] loop contributes; the
    unfolding lemmas below restate the loops through them. *)

Definition depthOfSelection (currentDepth : Z) (selection : Selection) : Z :=
  match selection with
  | Field _ _ (Some ss) => calculateSelectionSetDepth ss (GoInt.add currentDepth 1)
  | Field _ _ None => GoInt.add currentDepth 1
  | InlineFragment (Some ss) => calculateSelectionSetDepth ss currentDepth
  | InlineFragment None => 0
  | FragmentSpread _ => currentDepth
  end.

Definition addSelectionAliases (count : Z) (selection : Selection) : Z :=
  match selection with
  | Field alias _ ss =>
      let count := if has_alias alias then GoInt.add count 1 else count in
      match ss with
      | Some ss' => GoInt.add count (countSelectionSetAliases ss')
      | None => count
      end
  | InlineFragment (Some ss') => GoInt.add count (countSelectionSetAliases ss')
  | InlineFragment None => count
  | FragmentSpread _ => count
  end.

Definition addSelectionComplexity (multiplier complexity : Z)
    (selection : Selection) : Z :=
  match selection with
  | Field _ _ ss =>
      let complexity := GoInt.add complexity multiplier in
      match ss with
      | Some ss' =>
          GoInt.add complexity
            (calculateSelectionSetComplexity ss' (GoInt.mul multiplier 2))
      | None => complexity
      end
  | InlineFragment (Some ss') =>
      GoInt.add complexity (calculateSelectionSetComplexity ss' multiplier)
  | InlineFragment None => complexity
  | FragmentSpread _ => GoInt.add complexity multiplier
  end.

Definition introspectionAt (selection : Selection) : bool :=
  match selection with
  | Field _ name ss =>
      is_introspection_name name
      || match ss with
         | Some ss' => hasIntrospectionInSelectionSet ss'
         | None => false
         end
  | InlineFragment (Some ss') => hasIntrospectionInSelectionSet ss'
  | InlineFragment None => false
  | FragmentSpread _ => false
  end.

(** * The specification's reading of the analyzers

    Declarative counterparts over unbounded integers, written from the
    wording of the specification: a maximum, a sum, a count and a
    search over the selections of the tree. *)

Module Spec.

Definition max_over (base : Z) (l : list Z) : Z := fold_right Z.max base l.
Definition sum_over (l : list Z) : Z := fold_right Z.add 0 l.

(** Depth of a selection set evaluated at depth [d]: the largest
    contribution of its selections, and [d] itself when there is none. *)
Fixpoint selectionSetDepth (d : Z) (ss : SelectionSet) : Z :=
  match ss with
  | mkSelectionSet selections =>
      max_over d
        (map (fun sel =>
                match sel with
                | Field _ _ None => d + 1
                | Field _ _ (Some nested) => selectionSetDepth (d + 1) nested
                | InlineFragment (Some nested) => selectionSetDepth d nested
                | InlineFragment None => d
                | FragmentSpread _ => d
                end) selections)
  end.

(** What one selection contributes at depth [d]. *)
Definition selectionDepth (d : Z) (sel : Selection) : Z :=
  match sel with
  | Field _ _ None => d + 1
  | Field _ _ (Some nested) => selectionSetDepth (d + 1) nested
  | InlineFragment (Some nested) => selectionSetDepth d nested
  | InlineFragment None => d
  | FragmentSpread _ => d
  end.

Fixpoint depth (d : Z) (node : Node) : Z :=
  match node with
  | Document definitions => max_over d (map (depth d) definitions)
  | OperationDefinition (Some ss) => selectionSetDepth d ss
  | FragmentDefinition (Some ss) => selectionSetDepth d ss
  | _ => d
  end.

(** Complexity of a selection set evaluated at multiplier [m]. *)
Fixpoint selectionSetComplexity (m : Z) (ss : SelectionSet) : Z :=
  match ss with
  | mkSelectionSet selections =>
      sum_over
        (map (fun sel =>
                match sel with
                | Field _ _ None => m
                | Field _ _ (Some nested) => m + selectionSetComplexity (2 * m) nested
                | InlineFragment (Some nested) => selectionSetComplexity m nested
                | InlineFragment None => 0
                | FragmentSpread _ => m
                end) selections)
  end.

(** What one selection adds at multiplier [m]. *)
Definition selectionComplexity (m : Z) (sel : Selection) : Z :=
  match sel with
  | Field _ _ None => m
  | Field _ _ (Some nested) => m + selectionSetComplexity (2 * m) nested
  | InlineFragment (Some nested) => selectionSetComplexity m nested
  | InlineFragment None => 0
  | FragmentSpread _ => m
  end.

Fixpoint complexity (m : Z) (node : Node) : Z :=
  match node with
  | Document definitions => sum_over (map (complexity m) definitions)
  | OperationDefinition (Some ss) => selectionSetComplexity m ss
  | FragmentDefinition (Some ss) => selectionSetComplexity m ss
  | _ => 0
  end.

(** Every selection at any nesting level of a selection set, bodies of
    inline fragments included; a fragment spread is listed but not
    expanded. *)
Fixpoint selectionsIn (ss : SelectionSet) : list Selection :=
  match ss with
  | mkSelectionSet selections =>
      flat_map (fun sel =>
                  sel :: match sel with
                         | Field _ _ (Some nested) => selectionsIn nested
                         | InlineFragment (Some nested) => selectionsIn nested
                         | _ => []
                         end) selections
  end.

(** The same under every top-level definition. *)
Fixpoint selectionsOf (node : Node) : list Selection :=
  match node with
  | Document definitions => flat_map selectionsOf definitions
  | OperationDefinition (Some ss) => selectionsIn ss
  | FragmentDefinition (Some ss) => selectionsIn ss
  | _ => []
  end.

(** A Field whose alias is present and non-empty. *)
Definition aliasedField (sel : Selection) : bool :=
  match sel with
  | Field (Some a) _ _ => negb (String.eqb (Value a) EmptyString)
  | _ => false
  end.

(** How many selections of a list are aliased fields. *)
Definition countAliased (l : list Selection) : Z :=
  Z.of_nat (length (List.filter aliasedField l)).

Definition aliasCount (node : Node) : Z := countAliased (selectionsOf node).

(** A Field named exactly [__schema] or [__type]. *)
Definition introspectionField (sel : Selection) : Prop :=
  exists a n ss, sel = Field a (Some n) ss
                 /\ (Value n = "__schema" \/ Value n = "__type").

(** Step 2 of the policy: the text that is parsed. *)
Definition queryText (unmarshal : string -> option (gmap string json_value))
    (body : string) : string :=
  match unmarshal body with
  | Some object =>
      match object !! ("query" : string) with
      | Some (JString q) => q
      | _ => body
      end
  | None => body
  end.

(** Steps 4 to 8 of the policy on a parsed document, with the fixed
    limits 10, 4 and 200. *)
Definition verdict (doc : Node) : option error :=
  if hasIntrospection doc then Some IntrospectionRejected
  else if calculateQueryDepth doc 0 >? 10
       then Some (DepthExceeded 10 (calculateQueryDepth doc 0))
  else if countAliases doc >? 4
       then Some (AliasLimitExceeded 4 (countAliases doc))
  else if calculateQueryComplexity doc 1 >? 200
       then Some (ComplexityExceeded 200 (calculateQueryComplexity doc 1))
  else None.

End Spec.

(** ** Adding one leaf field to a selection set of the tree *)

(** [AddLeafIn leaf ss ss']: [ss'] is [ss] with [leaf] inserted as a
    sibling at some position of [ss] or of a selection set nested in it. *)
Inductive AddLeafIn (leaf : Selection) : SelectionSet -> SelectionSet -> Prop :=
| add_here before after :
    AddLeafIn leaf (mkSelectionSet (before ++ after))
                   (mkSelectionSet (before ++ leaf :: after))
| add_under_field before after a n ss ss' :
    AddLeafIn leaf ss ss' ->
    AddLeafIn leaf (mkSelectionSet (before ++ Field a n (Some ss) :: after))
                   (mkSelectionSet (before ++ Field a n (Some ss') :: after))
| add_under_inline before after ss ss' :
    AddLeafIn leaf ss ss' ->
    AddLeafIn leaf (mkSelectionSet (before ++ InlineFragment (Some ss) :: after))
                   (mkSelectionSet (before ++ InlineFragment (Some ss') :: after)).

Inductive AddLeaf (leaf : Selection) : Node -> Node -> Prop :=
| add_in_operation ss ss' :
    AddLeafIn leaf ss ss' ->
    AddLeaf leaf (OperationDefinition (Some ss)) (OperationDefinition (Some ss'))
| add_in_fragment ss ss' :
    AddLeafIn leaf ss ss' ->
    AddLeaf leaf (FragmentDefinition (Some ss)) (FragmentDefinition (Some ss'))
| add_in_document before after def def' :
    AddLeaf leaf def def' ->
    AddLeaf leaf (Document (before ++ def :: after))
                 (Document (before ++ def' :: after)).

(** ** The documents of the specification's scenarios *)

Module Scenario.

Definition leafField (name : string) : Selection :=
  Field None (Some (mkName name)) None.
Definition compositeField (name : string) (selections : list Selection) : Selection :=
  Field None (Some (mkName name)) (Some (mkSelectionSet selections)).
Definition aliasedComposite (alias name : string) (selections : list Selection)
  : Selection :=
  Field (Some (mkName alias)) (Some (mkName name)) (Some (mkSelectionSet selections)).

(** An anonymous query [{ ... }]: one operation definition. *)
Definition query (selections : list Selection) : list Node :=
  [OperationDefinition (Some (mkSelectionSet selections))].

Definition textA : string := "{ hello }".
Definition defsA : list Node := query [leafField "hello"].

Definition textB : string := "{ a { b { c { d { e { f } } } } } }".
Definition defsB : list Node :=
  query [compositeField "a" [compositeField "b" [compositeField "c"
           [compositeField "d" [compositeField "e" [leafField "f"]]]]]].

Definition textC : string :=
  "{ u1: user(id:1){name} u2: user(id:2){name} u3: user(id:3){name} u4: user(id:4){name} u5: user(id:5){name} }".
Definition defsC : list Node :=
  query [aliasedComposite "u1" "user" [leafField "name"];
         aliasedComposite "u2" "user" [leafField "name"];
         aliasedComposite "u3" "user" [leafField "name"];
         aliasedComposite "u4" "user" [leafField "name"];
         aliasedComposite "u5" "user" [leafField "name"]].

Definition textD : string := "{ __schema { types { name } } }".
Definition defsD : list Node :=
  query [compositeField "__schema" [compositeField "types" [leafField "name"]]].

(** The JSON envelope of scenario F; character 034 is the double quote. *)
Definition quote : string := String "034"%char EmptyString.
Definition bodyF : string :=
  "{" +:+ quote +:+ "query" +:+ quote +:+ ": " +:+ quote +:+ textA +:+ quote +:+ "}".

(** The two decoders on the texts above: what encoding/json and the
    graphql-go parser return for them; every other text is refused. *)
Definition unmarshal (body : string) : option (gmap string json_value) :=
  if String.eqb body bodyF then Some {[ ("query" : string) := JString textA ]}
  else None.

Definition parse (text : string) : option (list Node) :=
  if String.eqb text textA then Some defsA
  else if String.eqb text textB then Some defsB
  else if String.eqb text textC then Some defsC
  else if String.eqb text textD then Some defsD
  else None.

(** [chain n]: a field nested [n] levels below a field, [a { a { ... a } }]. *)
Fixpoint chain (n : nat) : Selection :=
  match n with
  | O => leafField "a"
  | S k => compositeField "a" [chain k]
  end.

(** Two documents and their extensions by the leaf field [b]: a single
    field, and a field nested 63 levels deep. *)
Definition single : Node := Document (query [leafField "a"]).
Definition single_b : Node := Document (query [leafField "a"; leafField "b"]).
Definition deep : Node := Document (query [chain 62]).
Definition deep_b : Node := Document (query [chain 62; leafField "b"]).

End Scenario.

(** ** Further sample inputs *)

Module Sample.

(** [{ a { a { a { a { a { a { a } } } } } } }]: seven levels of fields. *)
Definition text7 : string := "{ a { a { a { a { a { a { a } } } } } } }".
Definition defs7 : list Node := Scenario.query [Scenario.chain 6].

(** A parser and a decoder that know this one text. *)
Definition parse7 (text : string) : option (list Node) :=
  if String.eqb text text7 then Some defs7 else None.
Definition noJSON (body : string) : option (gmap string json_value) := None.

(** The envelope of [text7]. *)
Definition body7 : string :=
  "{" +:+ Scenario.quote +:+ "query" +:+ Scenario.quote +:+ ":"
  +:+ Scenario.quote +:+ text7 +:+ Scenario.quote +:+ "}".
Definition unmarshal7 (body : string) : option (gmap string json_value) :=
  if String.eqb body body7 then Some {[ ("query" : string) := JString text7 ]}
  else None.

End Sample.

(** * Resolver helpers and the HTTP handler (utils.go, handler.go) *)

(** The part of a [*http.Request] the handler reads.  [Header] is keyed
    by canonical header names, as [http.Header] is. *)
Record Request : Type := mkRequest {
  Method : string;
  Header : gmap string (list string);
  Body : option string;  (* what [io.ReadAll(r.Body)] returns; [None] on an error *)
  URLQuery : string      (* [r.URL.Query().Get("query")] *)
}.

(** [http.Header.Get] for a key given in canonical form: the first value
    stored under the key, or the empty string. *)
Definition Header_Get (h : gmap string (list string)) (key : string) : string :=
  match h !! key with
  | Some (v :: _) => v
  | _ => EmptyString
  end.

Section Handler.

(** Go's [float64] and the dynamic types the helpers do not look into
    (structs, slices, ...) stay abstract. *)
Context {float64 other Schema : Type}.

(** The dynamic value of an [interface{}]. *)
Inductive any : Type :=
| AnyNil
| AnyString (s : string)
| AnyInt (i : Z)
| AnyFloat64 (f : float64)
| AnyBool (b : bool)
| AnyMap (m : gmap string any)
| AnyOther (v : other).

(** [graphql.ResolveParams]: the arguments and [p.Info.RootValue]. *)
Record ResolveParams : Type := mkResolveParams {
  Args : gmap string any;
  RootValue : any
}.

(** The conversion [int(f)] of a [float64]. *)
Variable int_of_float64 : float64 -> Z.

(** ** utils.go *)

(** The typed getters return Go's pair of a value and an error; the
    error is [None] for [nil] and otherwise its message. *)

Definition GetRootString (p : ResolveParams) (key : string) : string * option string :=
  match RootValue p with
  | AnyNil => (EmptyString, Some "root value is nil")
  | AnyMap rootMap =>
      match rootMap !! key with
      | None => (EmptyString, Some ("key '" +:+ key +:+ "' not found in root value"))
      | Some (AnyString str) => (str, None)
      | Some _ =>
          (EmptyString, Some ("value for key '" +:+ key +:+ "' is not a string"))
      end
  | _ => (EmptyString, Some "root value is not a map")
  end.

Definition GetArgString (p : ResolveParams) (key : string) : string * option string :=
  match Args p !! key with
  | None => (EmptyString, Some ("argument '" +:+ key +:+ "' not found"))
  | Some (AnyString str) => (str, None)
  | Some _ => (EmptyString, Some ("argument '" +:+ key +:+ "' is not a string"))
  end.

Definition GetArgInt (p : ResolveParams) (key : string) : Z * option string :=
  match Args p !! key with
  | None => (0, Some ("argument '" +:+ key +:+ "' not found"))
  | Some (AnyInt v) => (v, None)
  | Some (AnyFloat64 v) => (int_of_float64 v, None)
  | Some _ => (0, Some ("argument '" +:+ key +:+ "' is not a number"))
  end.

Definition GetArgBool (p : ResolveParams) (key : string) : bool * option string :=
  match Args p !! key with
  | None => (false, Some ("argument '" +:+ key +:+ "' not found"))
  | Some (AnyBool b) => (b, None)
  | Some _ => (false, Some ("argument '" +:+ key +:+ "' is not a boolean"))
  end.

(** The [target interface{}] of GetArg and GetRootInfo: a valid pointer
    to a string, an int, a bool or anything else, with the value it
    points to. *)
Inductive Target : Type :=
| PtrString (v : string)
| PtrInt (v : Z)
| PtrBool (v : bool)
| PtrOther (v : other).

(** [json.Marshal(value)]: the bytes, or the message of the error. *)
Variable json_Marshal : any -> string + string.

(** [json.Unmarshal(jsonBytes, target)]: what the target points to
    afterwards, and the error. *)
Variable json_Unmarshal_into : string -> Target -> Target * option string.

(** GetArg returns the error; the first component is what [target]
    points to when it returns. *)
Definition GetArg (p : ResolveParams) (key : string) (target : Target)
  : Target * option string :=
  match Args p !! key with
  | None => (target, Some ("argument '" +:+ key +:+ "' not found"))
  | Some value =>
      let viaJSON :=
        match json_Marshal value with
        | inr err => (target, Some ("failed to marshal argument: " +:+ err))
        | inl jsonBytes =>
            match json_Unmarshal_into jsonBytes target with
            | (target', Some err) =>
                (target', Some ("failed to unmarshal argument into target: " +:+ err))
            | (target', None) => (target', None)
            end
        end in
      match target, value with
      | PtrString _, AnyString str => (PtrString str, None)
      | PtrInt _, AnyInt i => (PtrInt i, None)
      | PtrInt _, AnyFloat64 f => (PtrInt (int_of_float64 f), None)
      | PtrBool _, AnyBool b => (PtrBool b, None)
      | _, _ => viaJSON
      end
  end.

Definition GetRootInfo (p : ResolveParams) (key : string) (target : Target)
  : Target * option string :=
  match RootValue p with
  | AnyNil => (target, Some "root value is nil")
  | AnyMap rootMap =>
      match rootMap !! key with
      | None => (target, Some ("key '" +:+ key +:+ "' not found in root value"))
      | Some value =>
          let viaJSON :=
            match json_Marshal value with
            | inr err => (target, Some ("failed to marshal value: " +:+ err))
            | inl jsonBytes =>
                match json_Unmarshal_into jsonBytes target with
                | (target', Some err) =>
                    (target', Some ("failed to unmarshal value into target: " +:+ err))
                | (target', None) => (target', None)
                end
            end in
          match target, value with
          | PtrString _, AnyString str => (PtrString str, None)
          | PtrInt _, AnyInt i => (PtrInt i, None)
          | PtrInt _, AnyFloat64 f => (PtrInt (int_of_float64 f), None)
          | _, _ => viaJSON
          end
      end
  | _ => (target, Some "root value is not a map")
  end.

(** ** handler.go *)

(** [strings.EqualFold] and [strings.TrimSpace]. *)
Variable strings_EqualFold : string -> string -> bool.
Variable strings_TrimSpace : string -> string.

Definition bearerPrefix : string := "Bearer ".

Definition ExtractBearerToken (r : Request) : string :=
  let auth := Header_Get (Header r) "Authorization" in
  if String.eqb auth EmptyString then EmptyString
  else if (String.length bearerPrefix <? String.length auth)%nat
          && strings_EqualFold (String.substring 0 (String.length bearerPrefix) auth)
                               bearerPrefix
       then strings_TrimSpace
              (String.substring (String.length bearerPrefix)
                         (String.length auth - String.length bearerPrefix) auth)
       else EmptyString.

(** The members of [GraphContext] that the two request closures read.
    A [nil] function member is [None].  [UserDetailsFn] returns Go's
    pair of a value and an error. *)
Record GraphContext : Type := mkGraphContext {
  DEBUG : bool;
  RootObjectFn : option (Request -> gmap string any);
  TokenExtractorFn : option (Request -> string);
  UserDetailsFn : option (string -> any * option string);
  EnableValidation : bool;
  EnableSanitization : bool
}.

(** The [RootObjectFn] closure that New hands to the handler: the root
    value of one request.  The map returned by the context's own
    [RootObjectFn] is dropped by the source. *)
Definition New_RootObjectFn (graphCtx : GraphContext) (r : Request)
  : gmap string any :=
  let _ := match RootObjectFn graphCtx with
           | Some f => Some (f r)
           | None => None
           end in
  let rootValue : gmap string any := ∅ in
  let tokenExtractor :=
    match TokenExtractorFn graphCtx with
    | Some f => f
    | None => ExtractBearerToken
    end in
  let token := tokenExtractor r in
  if String.eqb token EmptyString then rootValue
  else
    let rootValue := <[("token" : string) := AnyString token]> rootValue in
    match UserDetailsFn graphCtx with
    | Some f =>
        match f token with
        | (details, None) => <[("details" : string) := details]> rootValue
        | (_, Some _) => rootValue
        end
    | None => rootValue
    end.

(** What the closure returned by NewHTTP does with one request. *)
Inductive Outcome : Type :=
| Served (sanitized : bool)
    (* [h.ServeHTTP]: on the writer itself, or on the wrapper followed by
       [sanitizeAndWrite] *)
| ReadFailed
    (* [http.Error(w, "Failed to read request body", 400)] *)
| Rejected (message : string).
    (* status 400 and the [errors] envelope carrying [err.Error()] *)

Variable json_Unmarshal : string -> option (gmap string json_value).
Variable parser_Parse : string -> option (list Node).

(** [r.ParseForm()] followed by [r.PostForm.Get("query")] on a request
    whose body has been read: [None] when ParseForm fails. *)
Variable http_PostFormQuery : Request -> string -> option string.

(** The handler NewHTTP returns for a context whose schema [schema]
    builds; a [nil] context is replaced by a DEBUG one. *)
Definition NewHTTP (graphCtx : option GraphContext) (schema : option Schema)
    (r : Request) : Outcome :=
  let graphCtx :=
    match graphCtx with
    | Some c => c
    | None => mkGraphContext true None None None false false
    end in
  if DEBUG graphCtx then Served false
  else
    let extracted : option string :=
      if String.eqb (Method r) "POST" then
        match Body r with
        | None => None
        | Some bodyBytes =>
            if String.eqb (Header_Get (Header r) "Content-Type")
                          "application/x-www-form-urlencoded"
            then match http_PostFormQuery r bodyBytes with
                 | Some q => Some q
                 | None => Some EmptyString
                 end
            else match json_Unmarshal bodyBytes with
                 | Some requestBody =>
                     match requestBody !! ("query" : string) with
                     | Some (JString q) => Some q
                     | _ => Some EmptyString
                     end
                 | None => Some EmptyString
                 end
        end
      else if String.eqb (Method r) "GET" then Some (URLQuery r)
      else Some EmptyString in
    match extracted with
    | None => ReadFailed
    | Some query =>
        let served := Served (EnableSanitization graphCtx) in
        if EnableValidation graphCtx && negb (String.eqb query EmptyString)
        then match ValidateGraphQLQuery json_Unmarshal parser_Parse query schema with
             | Some err => Rejected (Error err)
             | None => served
             end
        else served
    end.

End Handler.

(** ** Sample requests *)

Module SampleHTTP.

(** A production context: validation and sanitization on, a token
    extractor that reads the [X-Token] header and a user lookup. *)
Definition headerToken (r : Request) : string := Header_Get (Header r) "X-Token".
Definition lookupUser (token : string) : @any unit unit * option string :=
  (AnyString ("user of " +:+ token), None).
Definition production : @GraphContext unit unit :=
  mkGraphContext false None (Some headerToken) (Some lookupUser) true true.

Definition get (q : string) : Request :=
  mkRequest "GET" {[ ("X-Token" : string) := ["abc"] ]} None q.
Definition put (q : string) : Request :=
  mkRequest "PUT" ∅ None q.

(** The library functions the samples do not exercise. *)
Definition noFold (s t : string) : bool := false.
Definition noTrim (s : string) : string := s.
Definition noForm (r : Request) (body : string) : option string := None.
Definition noMarshal (v : @any unit unit) : string + string := inr "unsupported".
Definition noUnmarshal (data : string) (target : @Target unit)
  : @Target unit * option string := (target, Some "unsupported").
Definition truncate (f : unit) : Z := 0.

Definition handle : option GraphContext -> option unit -> Request -> Outcome :=
  @NewHTTP unit unit unit Scenario.unmarshal Scenario.parse noForm.

Definition params : @ResolveParams unit unit :=
  mkResolveParams {[ ("name" : string) := AnyString "Ada" ]}
                  (AnyMap (New_RootObjectFn noFold noTrim production (get "{ hello }"))).

End SampleHTTP.

(** * The schema builder (graphql_schema_builder.go) *)

Section SchemaBuilder.

(** [*graphql.Field], [*graphql.Object] and [graphql.Schema]. *)
Context {GraphQLField GraphQLObject GraphQLSchema : Type}.

(** The two interfaces, each with its methods [Serve] and [Name]. *)
Record QueryField : Type := mkQueryField {
  QueryField_Serve : GraphQLField;
  QueryField_Name : string
}.

Record MutationField : Type := mkMutationField {
  MutationField_Serve : GraphQLField;
  MutationField_Name : string
}.

Record SchemaBuilderParams : Type := mkSchemaBuilderParams {
  QueryFields : list QueryField;
  MutationFields : list MutationField
}.

Record SchemaBuilder : Type := mkSchemaBuilder {
  queryFields : list QueryField;
  mutationFields : list MutationField
}.

Definition NewSchemaBuilder (params : SchemaBuilderParams) : SchemaBuilder :=
  {| queryFields := QueryFields params; mutationFields := MutationFields params |}.

(** [graphql.ObjectConfig] and [graphql.SchemaConfig], with the members
    Build sets; [graphql.Fields] is a map from names to fields. *)
Record ObjectConfig : Type := mkObjectConfig {
  ObjectConfig_Name : string;
  ObjectConfig_Fields : gmap string GraphQLField
}.

Record SchemaConfig : Type := mkSchemaConfig {
  Query : option GraphQLObject;
  Mutation : option GraphQLObject
}.

Variable graphql_NewObject : ObjectConfig -> GraphQLObject.
Variable graphql_NewSchema : SchemaConfig -> GraphQLSchema * option string.

(** The two maps Build fills, one assignment per field in list order. *)
Definition Build_queryFields (sb : SchemaBuilder) : gmap string GraphQLField :=
  fold_left (fun fields field => <[QueryField_Name field := QueryField_Serve field]> fields)
            (queryFields sb) ∅.

Definition Build_mutationFields (sb : SchemaBuilder) : gmap string GraphQLField :=
  fold_left
    (fun fields field => <[MutationField_Name field := MutationField_Serve field]> fields)
    (mutationFields sb) ∅.

(** The configuration Build hands to [graphql.NewSchema]. *)
Definition Build_schemaConfig (sb : SchemaBuilder) : SchemaConfig :=
  let queryFields := Build_queryFields sb in
  let mutationFields := Build_mutationFields sb in
  {| Query :=
       if (0 <? size queryFields)%nat
       then Some (graphql_NewObject (mkObjectConfig "Query" queryFields))
       else None;
     Mutation :=
       if (0 <? size mutationFields)%nat
       then Some (graphql_NewObject (mkObjectConfig "Mutation" mutationFields))
       else None |}.

Definition Build (sb : SchemaBuilder) : GraphQLSchema * option string :=
  graphql_NewSchema (Build_schemaConfig sb).

End SchemaBuilder.

(** * JSONTime (its MarshalJSON and UnmarshalJSON methods) *)

Section JSONTime.

(** [time.Time], and the functions of package time and encoding/json
    the two methods call. *)
Context {Time : Type}.

(** [time.Time(t).Format(time.RFC3339)] *)
Variable time_Format_RFC3339 : Time -> string.

(** [time.Parse] with the layout RFC3339 between double quotes: the
    time, or the message of the error. *)
Variable time_Parse_quoted_RFC3339 : string -> Time + string.

(** [json.Unmarshal(data, &timeArray)] with [timeArray []int]. *)
Variable json_Unmarshal_ints : string -> list Z + string.

(** [time.Date(year, month, day, hour, minute, second, nsec, time.UTC)] *)
Variable time_Date : Z -> Z -> Z -> Z -> Z -> Z -> Z -> Time.

Definition doubleQuote : string := String "034"%char EmptyString.

Definition MarshalJSON (t : Time) : string * option string :=
  let stamp := doubleQuote +:+ time_Format_RFC3339 t +:+ doubleQuote in
  (stamp, None).

Inductive JSONTimeError : Type :=
| ParseError (message : string)
| DecodeError (message : string)
| InvalidTimeArray (timeArray : list Z).

(** The value [*t] holds when UnmarshalJSON returns, with the error it
    returns; or the run-time panic of indexing an empty slice. *)
Inductive UnmarshalOutcome : Type :=
| Returned (t : Time) (err : option JSONTimeError)
| Panicked.

Definition UnmarshalJSON (t : Time) (data : string) : UnmarshalOutcome :=
  if String.eqb data "null" then Returned t None
  else
    match data with
    | EmptyString => Panicked
    | String first _ =>
        if Ascii.eqb first "034"%char then
          match time_Parse_quoted_RFC3339 data with
          | inl parsed => Returned parsed None
          | inr err => Returned t (Some (ParseError err))
          end
        else
          match json_Unmarshal_ints data with
          | inr err => Returned t (Some (DecodeError err))
          | inl timeArray =>
              if (length timeArray <? 3)%nat
              then Returned t (Some (InvalidTimeArray timeArray))
              else
                let year := nth 0 timeArray 0 in
                let month := nth 1 timeArray 0 in
                let day := nth 2 timeArray 0 in
                let hour :=
                  if (3 <? length timeArray)%nat then nth 3 timeArray 0 else 0 in
                let minute :=
                  if (4 <? length timeArray)%nat then nth 4 timeArray 0 else 0 in
                let second :=
                  if (5 <? length timeArray)%nat then nth 5 timeArray 0 else 0 in
                let nsec :=
                  if (6 <? length timeArray)%nat then nth 6 timeArray 0 else 0 in
                Returned (time_Date year month day hour minute second nsec) None
          end
    end.

End JSONTime.

(** ** Sample fields and arrays *)

Module SampleBuilder.

(** Fields described by the name of their resolver. *)
Definition hello : @QueryField string := mkQueryField "resolveHello" "hello".
Definition userOld : @QueryField string := mkQueryField "resolveUserOld" "user".
Definition userNew : @QueryField string := mkQueryField "resolveUserNew" "user".

Definition builder : @SchemaBuilder string :=
  NewSchemaBuilder (mkSchemaBuilderParams [userOld; hello; userNew] []).

(** A time as the seven numbers given to [time.Date]. *)
Definition date (year month day hour minute second nsec : Z) : list Z :=
  [year; month; day; hour; minute; second; nsec].

(** A decoder that knows two arrays. *)
Definition ints (data : string) : list Z + string :=
  if String.eqb data "[2024,1,15]" then inl [2024; 1; 15]
  else if String.eqb data "[2024,1,15,0,0]" then inl [2024; 1; 15; 0; 0]
  else inr "not an array of numbers".

Definition noParse (data : string) : list Z + string := inr "not a time".

End SampleBuilder.

(** * Sanitizing an error message (handler.go, sanitizeAndWrite)

    The three steps applied to each [message] of the [errors] array.
    The first regular expression is the words Did you mean, a space, a
    double quote, one or more characters other than a double quote, a
    double quote and a question mark; its matches are removed.  Then
    every run of [\s] becomes one space, and the result is trimmed.
    The two expressions are written out as the scans they stand for:
    both read the message left to right, and matches never overlap. *)

Section Sanitize.

(** The literal start of a suggestion, up to its opening double quote. *)
Definition suggestionStart : string := "Did you mean " +:+ doubleQuote.

(** [stripPrefix p s]: what follows [p] in [s], when [s] starts with [p]. *)
Fixpoint stripPrefix (p s : string) : option string :=
  match p, s with
  | EmptyString, _ => Some s
  | String a p', String b s' => if Ascii.eqb a b then stripPrefix p' s' else None
  | String _ _, EmptyString => None
  end.

(** After the start: one or more characters other than the double
    quote ([seen] tells whether one was read), then a double quote and a
    question mark.  The result is the number of characters read. *)
Fixpoint nameAndEnd (seen : bool) (s : string) : option nat :=
  match s with
  | EmptyString => None
  | String c rest =>
      if Ascii.eqb c "034"%char then
        if seen then
          match rest with
          | String d _ => if Ascii.eqb d "?"%char then Some 2%nat else None
          | EmptyString => None
          end
        else None
      else option_map S (nameAndEnd true rest)
  end.

(** The length of the match of the expression at the start of [s]. *)
Definition suggestionLength (s : string) : option nat :=
  match stripPrefix suggestionStart s with
  | Some rest => option_map (Nat.add (String.length suggestionStart))
                            (nameAndEnd false rest)
  | None => None
  end.

(** [ReplaceAllString(message, "")]: [skip] characters of a match are
    still to be dropped. *)
Fixpoint dropSuggestions (skip : nat) (s : string) : string :=
  match s with
  | EmptyString => EmptyString
  | String c rest =>
      match skip with
      | S k => dropSuggestions k rest
      | O =>
          match suggestionLength s with
          | Some (S k) => dropSuggestions k rest
          | _ => String c (dropSuggestions 0 rest)
          end
      end
  end.

Definition removeSuggestions (message : string) : string :=
  dropSuggestions 0 message.

(** The class [\s] of Go's regular expressions: tab, line feed, form
    feed, carriage return and space. *)
Definition isRegexpSpace (c : ascii) : bool :=
  Ascii.eqb c "009"%char || Ascii.eqb c "010"%char || Ascii.eqb c "012"%char
  || Ascii.eqb c "013"%char || Ascii.eqb c " "%char.

(** Replacing every match of [\s+] by one space; [inRun] tells whether
    the previous character belonged to the current run. *)
Fixpoint collapse (inRun : bool) (s : string) : string :=
  match s with
  | EmptyString => EmptyString
  | String c rest =>
      if isRegexpSpace c
      then if inRun then collapse true rest
           else String " "%char (collapse true rest)
      else String c (collapse false rest)
  end.

Definition collapseSpaces (s : string) : string := collapse false s.

Variable strings_TrimSpace : string -> string.

Definition sanitizeMessage (message : string) : string :=
  let sanitized := removeSuggestions message in
  let sanitized := collapseSpaces sanitized in
  strings_TrimSpace sanitized.

(** No character of [s] is [c]. *)
Fixpoint without (c : ascii) (s : string) : bool :=
  match s with
  | EmptyString => true
  | String d rest => negb (Ascii.eqb d c) && without c rest
  end.

(** Every character of [s] in the class [\s] is the plain space. *)
Fixpoint plainSpaces (s : string) : bool :=
  match s with
  | EmptyString => true
  | String c rest =>
      (negb (isRegexpSpace c) || Ascii.eqb c " "%char) && plainSpaces rest
  end.

Definition startsWithSpace (s : string) : bool :=
  match s with
  | String c _ => Ascii.eqb c " "%char
  | EmptyString => false
  end.

(** Two spaces in a row somewhere in [s]. *)
Fixpoint doubleSpace (s : string) : bool :=
  match s with
  | String a (String b _ as rest) =>
      (Ascii.eqb a " "%char && Ascii.eqb b " "%char) || doubleSpace rest
  | _ => false
  end.

End Sanitize.

Module SampleMessage.

Definition one : string :=
  "Cannot query field " +:+ doubleQuote +:+ "nme" +:+ doubleQuote +:+ " on type "
  +:+ doubleQuote +:+ "User" +:+ doubleQuote +:+ ". Did you mean " +:+ doubleQuote
  +:+ "name" +:+ doubleQuote +:+ "?".

Definition two : string :=
  "Cannot query field " +:+ doubleQuote +:+ "nme" +:+ doubleQuote +:+ " on type "
  +:+ doubleQuote +:+ "User" +:+ doubleQuote +:+ ". Did you mean " +:+ doubleQuote
  +:+ "name" +:+ doubleQuote +:+ " or " +:+ doubleQuote +:+ "nmae" +:+ doubleQuote
  +:+ "?".

(** Trimming the ASCII space at both ends, enough for the samples. *)
Fixpoint trimLeft (s : string) : string :=
  match s with
  | String c rest => if Ascii.eqb c " "%char then trimLeft rest else s
  | EmptyString => EmptyString
  end.
Fixpoint trimRight (s : string) : string :=
  match s with
  | EmptyString => EmptyString
  | String c rest =>
      match trimRight rest with
      | EmptyString => if Ascii.eqb c " "%char then EmptyString
                       else String c EmptyString
      | kept => String c kept
      end
  end.
Definition trim (s : string) : string := trimRight (trimLeft s).

End SampleMessage.

(** * Properties *)

(** ** Arithmetic of Go integers *)

Module GoIntFacts.
Import GoInt.

Lemma wrap_in_range z : in_range (wrap z).
Proof.
  unfold in_range, wrap, min_int, max_int, modulus.
  pose proof (Z.mod_pos_bound (z + 2 ^ 63) (2 ^ 64)). lia.
Qed.

Lemma wrap_id z : in_range z -> wrap z = z.
Proof.
  unfold in_range, wrap, min_int, max_int, modulus. intros H.
  rewrite Z.mod_small; lia.
Qed.

Lemma wrap_wrap z : wrap (wrap z) = wrap z.
Proof. apply wrap_id, wrap_in_range. Qed.

(** [wrap] only forgets multiples of [2 ^ 64]. *)
Lemma wrap_spec z : exists k, wrap z = z + k * modulus.
Proof.
  exists (- ((z + 2 ^ 63) / modulus)). unfold wrap.
  rewrite Z.mod_eq by (unfold modulus; lia). lia.
Qed.

Lemma wrap_shift z k : wrap (z + k * modulus) = wrap z.
Proof.
  unfold wrap. replace (z + k * modulus + 2 ^ 63) with (z + 2 ^ 63 + k * modulus) by lia.
  rewrite Z.mod_add by (unfold modulus; lia). reflexivity.
Qed.

Lemma wrap_add_l a b : wrap (wrap a + b) = wrap (a + b).
Proof.
  destruct (wrap_spec a) as [k ->].
  replace (a + k * modulus + b) with (a + b + k * modulus) by lia.
  apply wrap_shift.
Qed.

Lemma wrap_add_r a b : wrap (a + wrap b) = wrap (a + b).
Proof. rewrite Z.add_comm, wrap_add_l. f_equal; lia. Qed.

Lemma wrap_mul_l a b : wrap (wrap a * b) = wrap (a * b).
Proof.
  destruct (wrap_spec a) as [k ->].
  replace ((a + k * modulus) * b) with (a * b + (k * b) * modulus) by lia.
  apply wrap_shift.
Qed.

Lemma wrap_mul_r a b : wrap (a * wrap b) = wrap (a * b).
Proof. rewrite Z.mul_comm, wrap_mul_l. f_equal; lia. Qed.

Lemma add_in_range a b : in_range (add a b).
Proof. apply wrap_in_range. Qed.

End GoIntFacts.

(** ** Structural induction through the nested selection sets *)

Section NestedInduction.

Variable P : SelectionSet -> Prop.
Hypothesis step : forall selections,
    Forall (fun sel => forall ss, GetSelectionSet sel = Some ss -> P ss) selections ->
    P (mkSelectionSet selections).

Lemma SelectionSet_nested_ind : forall ss, P ss.
Proof.
  fix IH 1. intros [selections]. apply step.
  induction selections as [|sel rest IHrest]; constructor; [|exact IHrest].
  intros ss E.
  destruct sel as [a n [ss0|]|[ss0|]|n]; simpl in E;
    try discriminate; injection E as <-; apply IH.
Qed.

End NestedInduction.

Section NodeInduction.

Variable P : Node -> Prop.
Hypothesis document : forall definitions, Forall P definitions -> P (Document definitions).
Hypothesis operation : forall ss, P (OperationDefinition ss).
Hypothesis fragment : forall ss, P (FragmentDefinition ss).
Hypothesis other : P OtherNode.

Lemma Node_nested_ind : forall node, P node.
Proof.
  fix IH 1. intros [definitions|ss|ss|];
    [|apply operation|apply fragment|apply other].
  apply document.
  induction definitions as [|def rest IHrest]; constructor; [apply IH|exact IHrest].
Qed.

End NodeInduction.

(** ** Loops as maxima and sums *)

Section Folds.

Context {B : Type}.

Lemma max_over_ge (base : Z) (l : list Z) : base <= Spec.max_over base l.
Proof. induction l as [|x l IH]; simpl; lia. Qed.

Lemma max_over_elem (base : Z) (l : list Z) (x : Z) :
  In x l -> x <= Spec.max_over base l.
Proof.
  induction l as [|y l IH]; simpl; [tauto|].
  intros [->|Hin]; [lia|]. specialize (IH Hin). lia.
Qed.

Lemma max_over_base (a b : Z) (l : list Z) :
  Spec.max_over (Z.max a b) l = Z.max b (Spec.max_over a l).
Proof. induction l as [|x l IH]; simpl; lia. Qed.

Lemma max_over_app (base : Z) (l1 l2 : list Z) :
  Spec.max_over base (l1 ++ l2) = Spec.max_over (Spec.max_over base l2) l1.
Proof. unfold Spec.max_over. apply fold_right_app. Qed.

Lemma max_over_mono_base (a b : Z) (l : list Z) :
  a <= b -> Spec.max_over a l <= Spec.max_over b l.
Proof. intros H. induction l as [|x l IH]; simpl; lia. Qed.

(** The [if depth > maxDepth] loop computes a maximum. *)
Lemma fold_left_max (f : B -> Z) (l : list B) (a : Z) :
  fold_left (fun m x => if f x >? m then f x else m) l a
  = Spec.max_over a (map f l).
Proof.
  revert a. induction l as [|x l IH]; intros a; simpl; [reflexivity|].
  rewrite IH.
  replace (if f x >? a then f x else a) with (Z.max a (f x))
    by (destruct (Z.gtb_spec (f x) a); lia).
  apply max_over_base.
Qed.

(** Two lists of contributions that agree above the base have the same
    maximum. *)
Lemma max_over_congr (d : Z) (f g : B -> Z) (l : list B) :
  (forall x, In x l -> Z.max d (f x) = Z.max d (g x)) ->
  Spec.max_over d (map f l) = Spec.max_over d (map g l).
Proof.
  induction l as [|x l IH]; intros H; simpl; [reflexivity|].
  pose proof (H x (or_introl eq_refl)) as Hx.
  rewrite <- IH by (intros y Hy; apply H; right; exact Hy).
  pose proof (max_over_ge d (map f l)). lia.
Qed.

(** Inserting a contribution never lowers the maximum. *)
Lemma max_over_insert (d : Z) (f : B -> Z) (l1 l2 : list B) (x : B) :
  Spec.max_over d (map f (l1 ++ l2)) <= Spec.max_over d (map f (l1 ++ x :: l2)).
Proof.
  rewrite !map_app, !max_over_app. apply max_over_mono_base. simpl. lia.
Qed.

(** Raising one contribution never lowers the maximum. *)
Lemma max_over_raise (d : Z) (f : B -> Z) (l1 l2 : list B) (x y : B) :
  f x <= f y ->
  Spec.max_over d (map f (l1 ++ x :: l2)) <= Spec.max_over d (map f (l1 ++ y :: l2)).
Proof.
  intros H. rewrite !map_app, !max_over_app. apply max_over_mono_base. simpl. lia.
Qed.

Lemma sum_over_app (l1 l2 : list Z) :
  Spec.sum_over (l1 ++ l2) = Spec.sum_over l1 + Spec.sum_over l2.
Proof. induction l1 as [|x l1 IH]; simpl; lia. Qed.

Lemma sum_over_congr (f g : B -> Z) (l : list B) :
  (forall x, In x l -> f x = g x) ->
  Spec.sum_over (map f l) = Spec.sum_over (map g l).
Proof.
  induction l as [|x l IH]; intros H; simpl; [reflexivity|].
  rewrite (H x (or_introl eq_refl)), IH; [reflexivity|].
  intros y Hy. apply H. right. exact Hy.
Qed.

Lemma sum_over_scale (m : Z) (f g : B -> Z) (l : list B) :
  (forall x, In x l -> f x = m * g x) ->
  Spec.sum_over (map f l) = m * Spec.sum_over (map g l).
Proof.
  induction l as [|x l IH]; intros H; simpl; [lia|].
  rewrite (H x (or_introl eq_refl)), IH; [lia|].
  intros y Hy. apply H. right. exact Hy.
Qed.

Lemma sum_over_nonneg (f : B -> Z) (l : list B) :
  (forall x, In x l -> 0 <= f x) -> 0 <= Spec.sum_over (map f l).
Proof.
  induction l as [|x l IH]; intros H; simpl; [lia|].
  pose proof (H x (or_introl eq_refl)).
  assert (0 <= Spec.sum_over (map f l)) by (apply IH; intros y Hy; apply H; right; exact Hy).
  lia.
Qed.

(** A loop whose every iteration adds, in [int] arithmetic, what [g]
    says, ends on the wrapped sum. *)
Lemma fold_left_add_wrap (step : Z -> B -> Z) (g : B -> Z) (l : list B) :
  (forall x, In x l -> forall c, GoInt.wrap (step c x) = GoInt.wrap (c + g x)) ->
  forall a, GoInt.wrap (fold_left step l a)
            = GoInt.wrap (a + Spec.sum_over (map g l)).
Proof.
  induction l as [|x l IH]; intros H a; simpl.
  - f_equal; lia.
  - rewrite IH by (intros y Hy; apply H; right; exact Hy).
    rewrite <- GoIntFacts.wrap_add_l, (H x (or_introl eq_refl)), GoIntFacts.wrap_add_l.
    f_equal; lia.
Qed.

Lemma fold_left_in_range (step : Z -> B -> Z) (l : list B) :
  (forall x c, GoInt.in_range c -> GoInt.in_range (step c x)) ->
  forall a, GoInt.in_range a -> GoInt.in_range (fold_left step l a).
Proof.
  intros H. induction l as [|x l IH]; intros a Ha; simpl; [exact Ha|].
  apply IH, H, Ha.
Qed.

End Folds.

(** ** The loops, unfolded once *)

Lemma calculateSelectionSetDepth_unfold selections d :
  calculateSelectionSetDepth (mkSelectionSet selections) d
  = Spec.max_over d (map (depthOfSelection d) selections).
Proof. exact (fold_left_max (depthOfSelection d) selections d). Qed.

Lemma calculateQueryDepth_document definitions d :
  calculateQueryDepth (Document definitions) d
  = Spec.max_over d (map (fun def => calculateQueryDepth def d) definitions).
Proof. exact (fold_left_max (fun def => calculateQueryDepth def d) definitions d). Qed.

Lemma selectionSetDepth_unfold selections d :
  Spec.selectionSetDepth d (mkSelectionSet selections)
  = Spec.max_over d (map (Spec.selectionDepth d) selections).
Proof. reflexivity. Qed.

Lemma selectionSetDepth_ge ss d : d <= Spec.selectionSetDepth d ss.
Proof. destruct ss. rewrite selectionSetDepth_unfold. apply max_over_ge. Qed.

(** ** Depth *)

Lemma calculateSelectionSetDepth_spec ss :
  forall d, 0 <= d -> Spec.selectionSetDepth d ss <= GoInt.max_int ->
            calculateSelectionSetDepth ss d = Spec.selectionSetDepth d ss.
Proof.
  induction ss as [selections IH] using SelectionSet_nested_ind.
  intros d Hd Hmax.
  rewrite calculateSelectionSetDepth_unfold, selectionSetDepth_unfold in *.
  apply max_over_congr. intros sel Hin.
  rewrite List.Forall_forall in IH. specialize (IH sel Hin).
  assert (Spec.selectionDepth d sel <= GoInt.max_int) as Hsel.
  { etransitivity; [|exact Hmax].
    apply max_over_elem, in_map, Hin. }
  assert (GoInt.max_int = 2 ^ 63 - 1) as Emax by reflexivity.
  destruct sel as [a n [nested|]|[nested|]|n]; simpl in *.
  - pose proof (selectionSetDepth_ge nested (d + 1)).
    assert (GoInt.add d 1 = d + 1) as ->.
    { apply GoIntFacts.wrap_id. unfold GoInt.in_range, GoInt.min_int. lia. }
    rewrite (IH nested eq_refl) by lia. reflexivity.
  - assert (GoInt.add d 1 = d + 1) as ->; [|reflexivity].
    apply GoIntFacts.wrap_id. unfold GoInt.in_range, GoInt.min_int. lia.
  - rewrite (IH nested eq_refl) by lia. reflexivity.
  - lia.
  - reflexivity.
Qed.

Lemma depth_ge node : forall d, d <= Spec.depth d node.
Proof.
  destruct node as [definitions|[ss|]|[ss|]|]; intros d; simpl;
    try lia; try apply selectionSetDepth_ge.
  apply max_over_ge.
Qed.

Lemma calculateQueryDepth_spec node :
  forall d, 0 <= d -> Spec.depth d node <= GoInt.max_int ->
            calculateQueryDepth node d = Spec.depth d node.
Proof.
  induction node as [definitions IH|ss|ss|] using Node_nested_ind;
    intros d Hd Hmax.
  - rewrite calculateQueryDepth_document. simpl in *.
    apply max_over_congr. intros def Hin.
    rewrite List.Forall_forall in IH. rewrite (IH def Hin d Hd); [reflexivity|].
    etransitivity; [|exact Hmax]. apply max_over_elem, in_map, Hin.
  - destruct ss as [ss|]; simpl in *; [|reflexivity].
    rewrite calculateSelectionSetDepth_spec by assumption.
    pose proof (selectionSetDepth_ge ss d).
    destruct (Z.gtb_spec (Spec.selectionSetDepth d ss) d); lia.
  - destruct ss as [ss|]; simpl in *; [|reflexivity].
    rewrite calculateSelectionSetDepth_spec by assumption.
    pose proof (selectionSetDepth_ge ss d).
    destruct (Z.gtb_spec (Spec.selectionSetDepth d ss) d); lia.
  - reflexivity.
Qed.

(** ** Complexity *)

Lemma calculateSelectionSetComplexity_unfold selections m :
  calculateSelectionSetComplexity (mkSelectionSet selections) m
  = fold_left (addSelectionComplexity m) selections 0.
Proof. reflexivity. Qed.

Lemma selectionSetComplexity_unfold selections m :
  Spec.selectionSetComplexity m (mkSelectionSet selections)
  = Spec.sum_over (map (Spec.selectionComplexity m) selections).
Proof. reflexivity. Qed.

(** The exact sum is linear in the multiplier. *)
Lemma selectionSetComplexity_linear ss :
  forall m, Spec.selectionSetComplexity m ss = m * Spec.selectionSetComplexity 1 ss.
Proof.
  induction ss as [selections IH] using SelectionSet_nested_ind.
  intros m. rewrite !selectionSetComplexity_unfold.
  apply sum_over_scale. intros sel Hin.
  rewrite List.Forall_forall in IH. specialize (IH sel Hin).
  destruct sel as [a n [nested|]|[nested|]|n]; simpl; try lia.
  - rewrite (IH nested eq_refl (2 * m)), (IH nested eq_refl (2 * 1)). lia.
  - apply (IH nested eq_refl).
Qed.

Lemma complexity_linear node :
  forall m, Spec.complexity m node = m * Spec.complexity 1 node.
Proof.
  induction node as [definitions IH|[ss|]|[ss|]|] using Node_nested_ind;
    intros m; simpl; try lia; try apply selectionSetComplexity_linear.
  apply sum_over_scale. rewrite List.Forall_forall in IH.
  intros def Hin. apply IH, Hin.
Qed.

Lemma selectionSetComplexity_nonneg ss :
  forall m, 0 <= m -> 0 <= Spec.selectionSetComplexity m ss.
Proof.
  induction ss as [selections IH] using SelectionSet_nested_ind.
  intros m Hm. rewrite selectionSetComplexity_unfold.
  apply sum_over_nonneg. intros sel Hin.
  rewrite List.Forall_forall in IH. specialize (IH sel Hin).
  destruct sel as [a n [nested|]|[nested|]|n]; simpl; try lia.
  - pose proof (IH nested eq_refl (2 * m)). lia.
  - apply (IH nested eq_refl). exact Hm.
Qed.

Lemma complexity_nonneg node :
  forall m, 0 <= m -> 0 <= Spec.complexity m node.
Proof.
  induction node as [definitions IH|[ss|]|[ss|]|] using Node_nested_ind;
    intros m Hm; simpl; try lia; try (apply selectionSetComplexity_nonneg; exact Hm).
  apply sum_over_nonneg. rewrite List.Forall_forall in IH.
  intros def Hin. apply IH; assumption.
Qed.

Lemma addSelectionComplexity_in_range m c sel :
  GoInt.in_range c -> GoInt.in_range (addSelectionComplexity m c sel).
Proof.
  intros Hc. destruct sel as [a n [nested|]|[nested|]|n]; simpl;
    try apply GoIntFacts.add_in_range; exact Hc.
Qed.

Lemma zero_in_range : GoInt.in_range 0.
Proof. unfold GoInt.in_range, GoInt.min_int, GoInt.max_int. lia. Qed.

Lemma calculateSelectionSetComplexity_in_range ss m :
  GoInt.in_range (calculateSelectionSetComplexity ss m).
Proof.
  destruct ss as [selections]. rewrite calculateSelectionSetComplexity_unfold.
  apply fold_left_in_range; [|apply zero_in_range].
  intros sel c. apply addSelectionComplexity_in_range.
Qed.

Lemma calculateQueryComplexity_in_range node m :
  GoInt.in_range (calculateQueryComplexity node m).
Proof.
  destruct node as [definitions|[ss|]|[ss|]|]; simpl;
    try apply GoIntFacts.add_in_range; try apply zero_in_range.
  apply fold_left_in_range; [|apply zero_in_range].
  intros def c _. apply GoIntFacts.add_in_range.
Qed.

(** The loop result and the exact sum differ by a multiple of [2 ^ 64]. *)
Lemma calculateSelectionSetComplexity_wrap ss :
  forall m, GoInt.wrap (calculateSelectionSetComplexity ss m)
            = GoInt.wrap (Spec.selectionSetComplexity m ss).
Proof.
  induction ss as [selections IH] using SelectionSet_nested_ind.
  intros m.
  rewrite calculateSelectionSetComplexity_unfold, selectionSetComplexity_unfold.
  rewrite (fold_left_add_wrap _ (Spec.selectionComplexity m)); [reflexivity|].
  intros sel Hin c.
  rewrite List.Forall_forall in IH. specialize (IH sel Hin).
  destruct sel as [a n [nested|]|[nested|]|n]; simpl; unfold GoInt.add.
  - rewrite GoIntFacts.wrap_wrap, GoIntFacts.wrap_add_l.
    rewrite <- GoIntFacts.wrap_add_r, (IH nested eq_refl).
    unfold GoInt.mul.
    rewrite selectionSetComplexity_linear, GoIntFacts.wrap_mul_l.
    rewrite GoIntFacts.wrap_add_r.
    rewrite (selectionSetComplexity_linear nested (2 * m)).
    f_equal; lia.
  - apply GoIntFacts.wrap_wrap.
  - rewrite GoIntFacts.wrap_wrap.
    rewrite <- GoIntFacts.wrap_add_r, (IH nested eq_refl), GoIntFacts.wrap_add_r.
    reflexivity.
  - f_equal; lia.
  - apply GoIntFacts.wrap_wrap.
Qed.

Lemma calculateSelectionSetComplexity_spec ss m :
  calculateSelectionSetComplexity ss m
  = GoInt.wrap (Spec.selectionSetComplexity m ss).
Proof.
  rewrite <- calculateSelectionSetComplexity_wrap.
  symmetry. apply GoIntFacts.wrap_id, calculateSelectionSetComplexity_in_range.
Qed.

Lemma calculateQueryComplexity_spec node :
  forall m, calculateQueryComplexity node m = GoInt.wrap (Spec.complexity m node).
Proof.
  induction node as [definitions IH|[ss|]|[ss|]|] using Node_nested_ind;
    intros m; simpl; unfold GoInt.add; simpl;
    try (rewrite calculateSelectionSetComplexity_spec; apply GoIntFacts.wrap_wrap);
    try reflexivity.
  rewrite <- (GoIntFacts.wrap_id (fold_left _ _ _)).
  - rewrite (fold_left_add_wrap _ (Spec.complexity m)); [reflexivity|].
    intros def Hin c. rewrite List.Forall_forall in IH.
    rewrite GoIntFacts.wrap_wrap, (IH def Hin), GoIntFacts.wrap_add_r.
    reflexivity.
  - apply fold_left_in_range; [|apply zero_in_range].
    intros def c _. apply GoIntFacts.wrap_in_range.
Qed.

(** ** Aliases *)

Lemma countSelectionSetAliases_unfold selections :
  countSelectionSetAliases (mkSelectionSet selections)
  = fold_left addSelectionAliases selections 0.
Proof. reflexivity. Qed.

Lemma countAliased_app l1 l2 :
  Spec.countAliased (l1 ++ l2) = Spec.countAliased l1 + Spec.countAliased l2.
Proof.
  unfold Spec.countAliased. rewrite List.filter_app, List.length_app. lia.
Qed.

Lemma countAliased_cons sel l :
  Spec.countAliased (sel :: l)
  = (if Spec.aliasedField sel then 1 else 0) + Spec.countAliased l.
Proof.
  unfold Spec.countAliased. simpl.
  destruct (Spec.aliasedField sel); simpl; lia.
Qed.

Lemma countAliased_flat_map {B} (f : B -> list Selection) (l : list B) :
  Spec.countAliased (flat_map f l)
  = Spec.sum_over (map (fun x => Spec.countAliased (f x)) l).
Proof.
  induction l as [|x l IH]; simpl; [reflexivity|].
  rewrite countAliased_app, IH. reflexivity.
Qed.

Lemma countAliased_nonneg l : 0 <= Spec.countAliased l.
Proof. unfold Spec.countAliased. lia. Qed.

Lemma aliasedField_has_alias alias n ss :
  Spec.aliasedField (Field alias n ss) = has_alias alias.
Proof. destruct alias; reflexivity. Qed.

Lemma addSelectionAliases_in_range c sel :
  GoInt.in_range c -> GoInt.in_range (addSelectionAliases c sel).
Proof.
  intros Hc. destruct sel as [a n [nested|]|[nested|]|n]; simpl;
    try apply GoIntFacts.add_in_range; try exact Hc.
  destruct (has_alias a); [apply GoIntFacts.add_in_range|exact Hc].
Qed.

Lemma countSelectionSetAliases_in_range ss :
  GoInt.in_range (countSelectionSetAliases ss).
Proof.
  destruct ss as [selections]. rewrite countSelectionSetAliases_unfold.
  apply fold_left_in_range; [|apply zero_in_range].
  intros sel c. apply addSelectionAliases_in_range.
Qed.

Lemma countSelectionSetAliases_wrap ss :
  GoInt.wrap (countSelectionSetAliases ss)
  = GoInt.wrap (Spec.countAliased (Spec.selectionsIn ss)).
Proof.
  induction ss as [selections IH] using SelectionSet_nested_ind.
  rewrite countSelectionSetAliases_unfold. simpl Spec.selectionsIn.
  rewrite countAliased_flat_map.
  rewrite (fold_left_add_wrap _
             (fun sel => Spec.countAliased
                           (sel :: match sel with
                                   | Field _ _ (Some nested) => Spec.selectionsIn nested
                                   | InlineFragment (Some nested) => Spec.selectionsIn nested
                                   | _ => []
                                   end))); [reflexivity|].
  intros sel Hin c.
  rewrite List.Forall_forall in IH. specialize (IH sel Hin).
  rewrite countAliased_cons.
  destruct sel as [a n [nested|]|[nested|]|n];
    rewrite ?aliasedField_has_alias; simpl; unfold GoInt.add.
  - rewrite GoIntFacts.wrap_wrap.
    rewrite <- GoIntFacts.wrap_add_r, (IH nested eq_refl), GoIntFacts.wrap_add_r.
    destruct (has_alias a).
    + rewrite GoIntFacts.wrap_add_l. f_equal; lia.
    + f_equal; lia.
  - destruct (has_alias a).
    + rewrite GoIntFacts.wrap_wrap. f_equal; unfold Spec.countAliased; simpl; lia.
    + f_equal; unfold Spec.countAliased; simpl; lia.
  - rewrite GoIntFacts.wrap_wrap.
    rewrite <- GoIntFacts.wrap_add_r, (IH nested eq_refl), GoIntFacts.wrap_add_r.
    reflexivity.
  - f_equal; unfold Spec.countAliased; simpl; lia.
  - f_equal; unfold Spec.countAliased; simpl; lia.
Qed.

Lemma countSelectionSetAliases_spec ss :
  countSelectionSetAliases ss
  = GoInt.wrap (Spec.countAliased (Spec.selectionsIn ss)).
Proof.
  rewrite <- countSelectionSetAliases_wrap.
  symmetry. apply GoIntFacts.wrap_id, countSelectionSetAliases_in_range.
Qed.

Lemma countAliases_spec node :
  countAliases node = GoInt.wrap (Spec.aliasCount node).
Proof.
  unfold Spec.aliasCount.
  induction node as [definitions IH|[ss|]|[ss|]|] using Node_nested_ind;
    simpl; unfold GoInt.add; simpl;
    try (rewrite countSelectionSetAliases_spec; apply GoIntFacts.wrap_wrap);
    try reflexivity.
  rewrite countAliased_flat_map.
  rewrite <- (GoIntFacts.wrap_id (fold_left _ _ _)).
  - rewrite (fold_left_add_wrap _ (fun def => Spec.countAliased (Spec.selectionsOf def)));
      [reflexivity|].
    intros def Hin c. rewrite List.Forall_forall in IH.
    rewrite GoIntFacts.wrap_wrap, (IH def Hin), GoIntFacts.wrap_add_r.
    reflexivity.
  - apply fold_left_in_range; [|apply zero_in_range].
    intros def c _. apply GoIntFacts.wrap_in_range.
Qed.

Lemma countAliases_in_range node : GoInt.in_range (countAliases node).
Proof. rewrite countAliases_spec. apply GoIntFacts.wrap_in_range. Qed.

(** ** Introspection *)

Lemma hasIntrospectionInSelectionSet_unfold selections :
  hasIntrospectionInSelectionSet (mkSelectionSet selections)
  = existsb introspectionAt selections.
Proof. reflexivity. Qed.

Lemma is_introspection_name_spec a n ss :
  is_introspection_name n = true <-> Spec.introspectionField (Field a n ss).
Proof.
  unfold Spec.introspectionField. split.
  - destruct n as [n|]; simpl; [|discriminate].
    intros H. apply orb_true_iff in H.
    exists a, n, ss. split; [reflexivity|].
    destruct H as [H|H]; apply String.eqb_eq in H; auto.
  - intros (a' & n' & ss' & E & H). injection E as -> -> ->. simpl.
    apply orb_true_iff.
    destruct H as [H|H]; [left|right]; apply String.eqb_eq; exact H.
Qed.

Lemma not_field_not_introspection sel :
  (forall a n ss, sel <> Field a n ss) -> ~ Spec.introspectionField sel.
Proof. intros H (a & n & ss & E & _). exact (H _ _ _ E). Qed.

Lemma hasIntrospectionInSelectionSet_spec ss :
  hasIntrospectionInSelectionSet ss = true
  <-> exists sel, In sel (Spec.selectionsIn ss) /\ Spec.introspectionField sel.
Proof.
  induction ss as [selections IH] using SelectionSet_nested_ind.
  rewrite hasIntrospectionInSelectionSet_unfold, existsb_exists.
  rewrite List.Forall_forall in IH. simpl Spec.selectionsIn. split.
  - intros (sel & Hin & H). specialize (IH sel Hin).
    destruct sel as [a n [nested|]|[nested|]|n]; simpl in H; try discriminate.
    + apply orb_true_iff in H. destruct H as [H|H].
      * exists (Field a n (Some nested)). split.
        -- apply in_flat_map. eexists. split; [exact Hin|left; reflexivity].
        -- apply is_introspection_name_spec, H.
      * apply (IH nested eq_refl) in H. destruct H as (s & Hs & Hi).
        exists s. split; [|exact Hi].
        apply in_flat_map. eexists. split; [exact Hin|right; exact Hs].
    + rewrite orb_false_r in H.
      exists (Field a n None). split.
      * apply in_flat_map. eexists. split; [exact Hin|left; reflexivity].
      * apply is_introspection_name_spec, H.
    + apply (IH nested eq_refl) in H. destruct H as (s & Hs & Hi).
      exists s. split; [|exact Hi].
      apply in_flat_map. eexists. split; [exact Hin|right; exact Hs].
  - intros (s & Hs & Hi). apply in_flat_map in Hs.
    destruct Hs as (sel & Hin & Hs). specialize (IH sel Hin).
    exists sel. split; [exact Hin|].
    destruct Hs as [<-|Hs].
    + destruct Hi as (a & n & ss & -> & Hn). simpl.
      apply orb_true_iff. left.
      apply (is_introspection_name_spec a (Some n) ss).
      exists a, n, ss. auto.
    + destruct sel as [a n [nested|]|[nested|]|n]; simpl in *; try tauto.
      * apply orb_true_iff. right. apply (IH nested eq_refl). eauto.
      * apply (IH nested eq_refl). eauto.
Qed.

Lemma hasIntrospection_spec node :
  hasIntrospection node = true
  <-> exists sel, In sel (Spec.selectionsOf node) /\ Spec.introspectionField sel.
Proof.
  induction node as [definitions IH|[ss|]|[ss|]|] using Node_nested_ind; simpl;
    try apply hasIntrospectionInSelectionSet_spec;
    try (split; [discriminate|intros (s & [] & _)]).
  rewrite existsb_exists. rewrite List.Forall_forall in IH. split.
  - intros (def & Hin & H). apply (IH def Hin) in H. destruct H as (s & Hs & Hi).
    exists s. split; [|exact Hi]. apply in_flat_map. eauto.
  - intros (s & Hs & Hi). apply in_flat_map in Hs. destruct Hs as (def & Hin & Hs).
    exists def. split; [exact Hin|]. apply (IH def Hin). eauto.
Qed.

(** ** Adding a leaf field *)

Lemma calculateSelectionSetDepth_AddLeafIn leaf ss ss' :
  AddLeafIn leaf ss ss' ->
  forall d, calculateSelectionSetDepth ss d <= calculateSelectionSetDepth ss' d.
Proof.
  induction 1 as [before after|before after a n ss ss' _ IH|before after ss ss' _ IH];
    intros d; rewrite !calculateSelectionSetDepth_unfold.
  - apply max_over_insert.
  - apply max_over_raise. simpl. apply IH.
  - apply max_over_raise. simpl. apply IH.
Qed.

Lemma calculateQueryDepth_AddLeaf leaf node node' :
  AddLeaf leaf node node' ->
  forall d, calculateQueryDepth node d <= calculateQueryDepth node' d.
Proof.
  induction 1 as [ss ss' H|ss ss' H|before after def def' _ IH]; intros d.
  - simpl. pose proof (calculateSelectionSetDepth_AddLeafIn _ _ _ H d).
    destruct (Z.gtb_spec (calculateSelectionSetDepth ss d) d);
      destruct (Z.gtb_spec (calculateSelectionSetDepth ss' d) d); lia.
  - simpl. pose proof (calculateSelectionSetDepth_AddLeafIn _ _ _ H d).
    destruct (Z.gtb_spec (calculateSelectionSetDepth ss d) d);
      destruct (Z.gtb_spec (calculateSelectionSetDepth ss' d) d); lia.
  - rewrite !calculateQueryDepth_document.
    apply (max_over_raise d (fun def => calculateQueryDepth def d)), IH.
Qed.

Lemma selectionSetComplexity_AddLeafIn a n ss ss' :
  AddLeafIn (Field a n None) ss ss' ->
  forall m, 0 <= m ->
            Spec.selectionSetComplexity m ss <= Spec.selectionSetComplexity m ss'.
Proof.
  induction 1 as [before after|before after a' n' ss ss' _ IH|before after ss ss' _ IH];
    intros m Hm; rewrite !selectionSetComplexity_unfold, !map_app, !sum_over_app;
    simpl.
  - lia.
  - specialize (IH (2 * m)). lia.
  - specialize (IH m). lia.
Qed.

Lemma complexity_AddLeaf a n node node' :
  AddLeaf (Field a n None) node node' ->
  forall m, 0 <= m -> Spec.complexity m node <= Spec.complexity m node'.
Proof.
  induction 1 as [ss ss' H|ss ss' H|before after def def' _ IH]; intros m Hm; simpl.
  - apply (selectionSetComplexity_AddLeafIn _ _ _ _ H), Hm.
  - apply (selectionSetComplexity_AddLeafIn _ _ _ _ H), Hm.
  - rewrite !map_app, !sum_over_app. simpl. specialize (IH m Hm). lia.
Qed.

Lemma countAliased_AddLeafIn a n ss ss' :
  AddLeafIn (Field a n None) ss ss' ->
  Spec.countAliased (Spec.selectionsIn ss')
  = Spec.countAliased (Spec.selectionsIn ss) + (if has_alias a then 1 else 0).
Proof.
  induction 1 as [before after|before after a' n' ss ss' _ IH|before after ss ss' _ IH];
    simpl Spec.selectionsIn; rewrite !flat_map_app, !countAliased_app; simpl;
    rewrite ?countAliased_cons, ?countAliased_app, ?aliasedField_has_alias.
  - lia.
  - rewrite IH. lia.
  - rewrite IH. simpl. lia.
Qed.

Lemma aliasCount_AddLeaf a n node node' :
  AddLeaf (Field a n None) node node' ->
  Spec.aliasCount node' = Spec.aliasCount node + (if has_alias a then 1 else 0).
Proof.
  unfold Spec.aliasCount.
  induction 1 as [ss ss' H|ss ss' H|before after def def' _ IH]; simpl.
  - apply (countAliased_AddLeafIn _ _ _ _ H).
  - apply (countAliased_AddLeafIn _ _ _ _ H).
  - rewrite !flat_map_app, !countAliased_app. simpl.
    rewrite ?countAliased_app, IH. lia.
Qed.

(** In [int] arithmetic the alias counter moves by the alias of the leaf. *)
Lemma countAliases_AddLeaf a n node node' :
  AddLeaf (Field a n None) node node' ->
  countAliases node'
  = if has_alias a then GoInt.add (countAliases node) 1 else countAliases node.
Proof.
  intros H. rewrite !countAliases_spec, (aliasCount_AddLeaf _ _ _ _ H).
  destruct (has_alias a).
  - unfold GoInt.add. rewrite GoIntFacts.wrap_add_l. reflexivity.
  - f_equal; lia.
Qed.

(** ** The policy, step by step *)

Lemma ValidateGraphQLQuery_unfold {Schema : Type} json parse q (schema : option Schema) :
  q <> EmptyString ->
  ValidateGraphQLQuery json parse q schema
  = match parse (Spec.queryText json q) with
    | None => None
    | Some definitions => Spec.verdict (Document definitions)
    end.
Proof.
  intros Hq. unfold ValidateGraphQLQuery, Spec.queryText, Spec.verdict.
  destruct (String.eqb_spec q EmptyString); [contradiction|]. reflexivity.
Qed.

Lemma ValidateGraphQLQuery_empty {Schema : Type} json parse (schema : option Schema) :
  ValidateGraphQLQuery json parse EmptyString schema = None.
Proof. reflexivity. Qed.

(** The message of the rejection of scenario C, as [fmt.Errorf] formats it. *)
Example Error_scenario_C :
  Error (AliasLimitExceeded 4 5)
  = "query contains too many aliases. Maximum allowed: 4, found: 5".
Proof. reflexivity. Qed.

(** * The claims *)

(** C1. ValidateGraphQLQuery allows the empty query string and any query
    text (the string itself, or the [query] member of its JSON envelope)
    that fails to parse.  Otherwise it returns an error exactly when the
    document has introspection, or depth > 10, or more than 4 aliases,
    or complexity at base weight 1 above 200; the checks run in that
    order and the first one that fails gives the reason. *)
Theorem ValidateGraphQLQuery_policy {Schema : Type}
    (json : string -> option (gmap string json_value))
    (parse : string -> option (list Node))
    (q : string) (schema : option Schema) :
  let result := ValidateGraphQLQuery json parse q schema in
  (q = EmptyString -> result = None)
  /\ (parse (Spec.queryText json q) = None -> result = None)
  /\ (forall definitions,
        q <> EmptyString ->
        parse (Spec.queryText json q) = Some definitions ->
        let doc := Document definitions in
        let depth := calculateQueryDepth doc 0 in
        let aliases := countAliases doc in
        let complexity := calculateQueryComplexity doc 1 in
        (result <> None <->
           hasIntrospection doc = true \/ depth > 10 \/ aliases > 4
           \/ complexity > 200)
        /\ (hasIntrospection doc = true -> result = Some IntrospectionRejected)
        /\ (hasIntrospection doc = false -> depth > 10 ->
            result = Some (DepthExceeded 10 depth))
        /\ (hasIntrospection doc = false -> depth <= 10 -> aliases > 4 ->
            result = Some (AliasLimitExceeded 4 aliases))
        /\ (hasIntrospection doc = false -> depth <= 10 -> aliases <= 4 ->
            complexity > 200 ->
            result = Some (ComplexityExceeded 200 complexity))).
Proof.
  intros result. split; [|split].
  - intros ->. reflexivity.
  - intros Hparse. subst result.
    destruct (String.eqb_spec q EmptyString) as [->|Hq]; [reflexivity|].
    rewrite ValidateGraphQLQuery_unfold, Hparse by exact Hq. reflexivity.
  - intros definitions Hq Hparse doc depth aliases complexity.
    assert (result = Spec.verdict doc) as ->.
    { subst result. rewrite ValidateGraphQLQuery_unfold, Hparse by exact Hq.
      reflexivity. }
    unfold Spec.verdict. fold depth aliases complexity.
    destruct (hasIntrospection doc);
      [|destruct (Z.gtb_spec depth 10);
        [|destruct (Z.gtb_spec aliases 4);
          [|destruct (Z.gtb_spec complexity 200)]]];
      repeat split; intros; try discriminate; try reflexivity; try lia; auto;
      try (intuition (discriminate || lia)).
Qed.

(** C2, as amended.  The document of [{ a { b { c { d { e { f } } } } } }]
    has depth 6, which does not exceed the limit 10; with no alias and
    complexity 63 the query is allowed. *)
Theorem scenario_B_depth_six :
  calculateQueryDepth (Document Scenario.defsB) 0 = 6
  /\ countAliases (Document Scenario.defsB) = 0
  /\ calculateQueryComplexity (Document Scenario.defsB) 1 = 63
  /\ forall (Schema : Type) json parse (schema : option Schema),
       json Scenario.textB = None ->
       parse Scenario.textB = Some Scenario.defsB ->
       ValidateGraphQLQuery json parse Scenario.textB schema = None.
Proof.
  repeat split.
  intros Schema json parse schema Hjson Hparse.
  rewrite ValidateGraphQLQuery_unfold by discriminate.
  unfold Spec.queryText. rewrite Hjson, Hparse. reflexivity.
Qed.

(** C3. For every document whose nesting fits in an [int],
    calculateQueryDepth at 0 is the maximum described by the
    specification: definitions at their own depth, a leaf field [d+1],
    a composite field its selection set at [d+1], an inline fragment
    its selection set at [d], a fragment spread [d]; the empty document
    yields 0. *)
Theorem calculateQueryDepth_is_maximum (definitions : list Node) :
  Spec.depth 0 (Document definitions) <= GoInt.max_int ->
  calculateQueryDepth (Document definitions) 0 = Spec.depth 0 (Document definitions)
  /\ calculateQueryDepth (Document []) 0 = 0.
Proof.
  intros H. split; [|reflexivity].
  apply calculateQueryDepth_spec; [lia|exact H].
Qed.

(** C4. For every document and multiplier, calculateQueryComplexity is
    the sum described by the specification (a field adds [m], a nested
    selection set is added at [2 * m], an inline fragment at [m], a
    fragment spread adds [m]), held in an [int]: it is that sum reduced
    to 64 bits, and the sum itself whenever the sum is within range. *)
Theorem calculateQueryComplexity_is_sum (definitions : list Node) (m : Z) :
  calculateQueryComplexity (Document definitions) m
  = GoInt.wrap (Spec.complexity m (Document definitions))
  /\ (GoInt.in_range (Spec.complexity m (Document definitions)) ->
      calculateQueryComplexity (Document definitions) m
      = Spec.complexity m (Document definitions)).
Proof.
  split.
  - apply calculateQueryComplexity_spec.
  - intros H. rewrite calculateQueryComplexity_spec. apply GoIntFacts.wrap_id, H.
Qed.

(** C5. hasIntrospection is true exactly when some field reachable in
    the document without expanding fragment spreads is named [__schema]
    or [__type]; ValidateGraphQLQuery then rejects with the
    introspection reason whatever depth, aliases and complexity are.
    The document of scenario D is such a document. *)
Theorem hasIntrospection_iff_reachable_field (definitions : list Node) :
  (hasIntrospection (Document definitions) = true
   <-> exists sel, In sel (Spec.selectionsOf (Document definitions))
                   /\ Spec.introspectionField sel)
  /\ (forall (Schema : Type) json parse q (schema : option Schema),
        q <> EmptyString ->
        parse (Spec.queryText json q) = Some definitions ->
        hasIntrospection (Document definitions) = true ->
        ValidateGraphQLQuery json parse q schema = Some IntrospectionRejected)
  /\ hasIntrospection (Document Scenario.defsD) = true.
Proof.
  split; [apply hasIntrospection_spec|split; [|reflexivity]].
  intros Schema json parse q schema Hq Hparse Hintro.
  rewrite ValidateGraphQLQuery_unfold, Hparse by exact Hq.
  unfold Spec.verdict. rewrite Hintro. reflexivity.
Qed.

(** C6. For every document countAliases is the number of reachable
    fields with a present, non-empty alias, held in an [int] (the
    number itself whenever it is at most the largest [int]).  The
    document of scenario C has 5 of them and its query is rejected with
    the alias reason, limit 4 and actual 5. *)
Theorem countAliases_is_total (definitions : list Node) :
  countAliases (Document definitions)
  = GoInt.wrap (Spec.aliasCount (Document definitions))
  /\ (Spec.aliasCount (Document definitions) <= GoInt.max_int ->
      countAliases (Document definitions) = Spec.aliasCount (Document definitions))
  /\ countAliases (Document Scenario.defsC) = 5
  /\ (forall (Schema : Type) json parse (schema : option Schema),
        json Scenario.textC = None ->
        parse Scenario.textC = Some Scenario.defsC ->
        ValidateGraphQLQuery json parse Scenario.textC schema
        = Some (AliasLimitExceeded 4 5)).
Proof.
  split; [apply countAliases_spec|split; [|split; [reflexivity|]]].
  - intros H. rewrite countAliases_spec. apply GoIntFacts.wrap_id.
    pose proof (countAliased_nonneg (Spec.selectionsOf (Document definitions))).
    unfold Spec.aliasCount in *. unfold GoInt.in_range, GoInt.min_int. lia.
  - intros Schema json parse schema Hjson Hparse.
    rewrite ValidateGraphQLQuery_unfold by discriminate.
    unfold Spec.queryText. rewrite Hjson, Hparse. reflexivity.
Qed.

(** C7. When the body decodes as a JSON object whose [query] member is a
    string, that string is the text parsed and analyzed; otherwise the
    whole body is.  The envelope of scenario F is analyzed as
    [{ hello }]: what the parser says of the envelope itself plays no
    part. *)
Theorem ValidateGraphQLQuery_extracts_query {Schema : Type}
    (json : string -> option (gmap string json_value))
    (parse : string -> option (list Node))
    (body : string) (schema : option Schema) :
  let analyze text :=
    match parse text with
    | None => None
    | Some definitions => Spec.verdict (Document definitions)
    end in
  (body <> EmptyString ->
   forall object q,
     json body = Some object -> object !! ("query" : string) = Some (JString q) ->
     ValidateGraphQLQuery json parse body schema = analyze q)
  /\ (body <> EmptyString ->
      (json body = None
       \/ exists object, json body = Some object
                         /\ forall q, object !! ("query" : string) <> Some (JString q)) ->
      ValidateGraphQLQuery json parse body schema = analyze body)
  /\ (json Scenario.bodyF = Some {[ ("query" : string) := JString Scenario.textA ]} ->
      ValidateGraphQLQuery json parse Scenario.bodyF schema = analyze Scenario.textA).
Proof.
  intros analyze. split; [|split].
  - intros Hbody object q Hjson Hquery.
    rewrite ValidateGraphQLQuery_unfold by exact Hbody.
    unfold Spec.queryText. rewrite Hjson, Hquery. reflexivity.
  - intros Hbody H. rewrite ValidateGraphQLQuery_unfold by exact Hbody.
    unfold Spec.queryText. destruct H as [->|(object & -> & Hno)]; [reflexivity|].
    destruct (object !! ("query" : string)) as [[| | |s| |]|] eqn:E; try reflexivity.
    exfalso. exact (Hno s eq_refl).
  - intros Hjson. rewrite ValidateGraphQLQuery_unfold by discriminate.
    unfold Spec.queryText. rewrite Hjson. reflexivity.
Qed.

(** C8, as stated, fails for the complexity: with a negative multiplier
    an added leaf lowers it, and at multiplier 1 an added leaf takes the
    complexity of a document nested 63 levels deep from the largest
    [int] to the smallest. *)
Lemma added_leaf_lowers_complexity :
  (AddLeaf (Scenario.leafField "b") Scenario.single Scenario.single_b
   /\ calculateQueryComplexity Scenario.single (-1) = -1
   /\ calculateQueryComplexity Scenario.single_b (-1) = -2)
  /\ (AddLeaf (Scenario.leafField "b") Scenario.deep Scenario.deep_b
      /\ calculateQueryComplexity Scenario.deep 1 = 2 ^ 63 - 1
      /\ calculateQueryComplexity Scenario.deep_b 1 = - 2 ^ 63).
Proof.
  split; (split; [|split; vm_compute; reflexivity]).
  - apply (add_in_document _ [] []), add_in_operation.
    exact (add_here _ [Scenario.leafField "a"] []).
  - apply (add_in_document _ [] []), add_in_operation.
    exact (add_here _ [Scenario.chain 62] []).
Qed.

(** C8, as amended.  Adding one leaf field to any selection set of a
    document never lowers calculateQueryDepth; it leaves countAliases
    unchanged when the leaf has no alias and adds one to it, in [int]
    arithmetic, when the leaf has one, which is strictly more while the
    counter is below the largest [int]; and it never lowers
    calculateQueryComplexity at a multiplier [m >= 0] when the exact
    complexity of the extended document fits in an [int]. *)
Theorem adding_leaf_monotone (alias name : option Name) (doc doc' : Node) :
  AddLeaf (Field alias name None) doc doc' ->
  countAliases doc'
  = (if has_alias alias then GoInt.add (countAliases doc) 1 else countAliases doc)
  /\ (has_alias alias = false \/ countAliases doc < GoInt.max_int ->
      countAliases doc <= countAliases doc')
  /\ (has_alias alias = true -> countAliases doc < GoInt.max_int ->
      countAliases doc < countAliases doc')
  /\ (forall m, 0 <= m -> Spec.complexity m doc' <= GoInt.max_int ->
                calculateQueryComplexity doc m <= calculateQueryComplexity doc' m)
  /\ (forall d, calculateQueryDepth doc d <= calculateQueryDepth doc' d).
Proof.
  intros H.
  assert (countAliases doc < GoInt.max_int ->
          GoInt.add (countAliases doc) 1 = countAliases doc + 1) as Hadd.
  { intros Hlt. apply GoIntFacts.wrap_id.
    pose proof (countAliases_in_range doc) as [Hlo _].
    unfold GoInt.in_range. lia. }
  split; [|split; [|split; [|split]]].
  - apply (countAliases_AddLeaf _ _ _ _ H).
  - rewrite (countAliases_AddLeaf _ _ _ _ H).
    intros [->|Hlt]; [lia|].
    destruct (has_alias alias); [rewrite Hadd by exact Hlt|]; lia.
  - rewrite (countAliases_AddLeaf _ _ _ _ H).
    intros -> Hlt. rewrite Hadd by exact Hlt. lia.
  - intros m Hm Hmax.
    pose proof (complexity_AddLeaf _ _ _ _ H m Hm).
    pose proof (complexity_nonneg doc m Hm).
    rewrite !calculateQueryComplexity_spec, !GoIntFacts.wrap_id;
      [assumption| |]; unfold GoInt.in_range, GoInt.min_int; lia.
  - apply (calculateQueryDepth_AddLeaf _ _ _ H).
Qed.

(** C9. The result of ValidateGraphQLQuery is the same for any two
    schema arguments. *)
Theorem ValidateGraphQLQuery_ignores_schema {Schema : Type}
    (json : string -> option (gmap string json_value))
    (parse : string -> option (list Node))
    (q : string) (schema1 schema2 : option Schema) :
  ValidateGraphQLQuery json parse q schema1
  = ValidateGraphQLQuery json parse q schema2.
Proof. reflexivity. Qed.

(** C10. For every document and multiplier [m],
    calculateQueryComplexity at [m] is [m] times calculateQueryComplexity
    at 1, the product being Go's [int] product (the exact product
    whenever that is within range). *)
Theorem calculateQueryComplexity_homogeneous (definitions : list Node) (m : Z) :
  calculateQueryComplexity (Document definitions) m
  = GoInt.mul m (calculateQueryComplexity (Document definitions) 1)
  /\ (GoInt.in_range (m * calculateQueryComplexity (Document definitions) 1) ->
      calculateQueryComplexity (Document definitions) m
      = m * calculateQueryComplexity (Document definitions) 1).
Proof.
  assert (calculateQueryComplexity (Document definitions) m
          = GoInt.mul m (calculateQueryComplexity (Document definitions) 1)) as E.
  { rewrite !calculateQueryComplexity_spec. unfold GoInt.mul.
    rewrite GoIntFacts.wrap_mul_r, (complexity_linear _ m). reflexivity. }
  split; [exact E|].
  intros H. rewrite E. apply GoIntFacts.wrap_id, H.
Qed.

(** C2 as stated fails: the depth of the document of scenario B is not
    11 and its query is allowed, not rejected for its depth. *)
Lemma scenario_B_not_rejected :
  calculateQueryDepth (Document Scenario.defsB) 0 <> 11
  /\ @ValidateGraphQLQuery unit Scenario.unmarshal Scenario.parse Scenario.textB None
     <> Some (DepthExceeded 10 11).
Proof. split; vm_compute; discriminate. Qed.

(** * The theorems at concrete inputs *)

Lemma ValidateGraphQLQuery_policy_scenario_C :
  @ValidateGraphQLQuery unit Scenario.unmarshal Scenario.parse Scenario.textC None
  = Some (AliasLimitExceeded 4 5).
Proof.
  destruct (ValidateGraphQLQuery_policy Scenario.unmarshal Scenario.parse
              Scenario.textC (@None unit)) as (_ & _ & H).
  destruct (H Scenario.defsC) as (_ & _ & _ & Ha & _);
    [discriminate|reflexivity|].
  apply Ha; [reflexivity|vm_compute; discriminate|reflexivity].
Defined.

Lemma scenario_B_depth_six_allowed :
  @ValidateGraphQLQuery unit Scenario.unmarshal Scenario.parse Scenario.textB None
  = None.
Proof.
  destruct scenario_B_depth_six as (_ & _ & _ & H).
  apply H; reflexivity.
Defined.

Lemma calculateQueryDepth_is_maximum_scenario_B :
  Spec.depth 0 (Document Scenario.defsB) <= GoInt.max_int
  /\ calculateQueryDepth (Document Scenario.defsB) 0
     = Spec.depth 0 (Document Scenario.defsB).
Proof.
  assert (Spec.depth 0 (Document Scenario.defsB) <= GoInt.max_int) as H
    by (vm_compute; discriminate).
  split; [exact H|].
  apply (calculateQueryDepth_is_maximum Scenario.defsB H).
Defined.

Lemma calculateQueryComplexity_is_sum_scenario_B :
  calculateQueryComplexity (Document Scenario.defsB) 1
  = Spec.complexity 1 (Document Scenario.defsB).
Proof.
  apply (calculateQueryComplexity_is_sum Scenario.defsB 1).
  split; vm_compute; discriminate.
Defined.

Lemma hasIntrospection_scenario_D :
  @ValidateGraphQLQuery unit Scenario.unmarshal Scenario.parse Scenario.textD None
  = Some IntrospectionRejected.
Proof.
  destruct (hasIntrospection_iff_reachable_field Scenario.defsD) as (_ & H & _).
  apply H; [discriminate|reflexivity|reflexivity].
Defined.

Lemma countAliases_is_total_scenario_C :
  countAliases (Document Scenario.defsC) = Spec.aliasCount (Document Scenario.defsC)
  /\ @ValidateGraphQLQuery unit Scenario.unmarshal Scenario.parse Scenario.textC None
     = Some (AliasLimitExceeded 4 5).
Proof.
  destruct (countAliases_is_total Scenario.defsC) as (_ & Hcount & _ & Hquery).
  split.
  - apply Hcount. vm_compute. discriminate.
  - apply Hquery; reflexivity.
Defined.

Lemma ValidateGraphQLQuery_extracts_query_scenario_F :
  @ValidateGraphQLQuery unit Scenario.unmarshal Scenario.parse Scenario.bodyF None
  = match Scenario.parse Scenario.textA with
    | None => None
    | Some definitions => Spec.verdict (Document definitions)
    end.
Proof.
  destruct (ValidateGraphQLQuery_extracts_query Scenario.unmarshal Scenario.parse
              Scenario.bodyF (@None unit)) as (H & _ & _).
  apply (H ltac:(discriminate) {[ ("query" : string) := JString Scenario.textA ]});
    reflexivity.
Defined.

Lemma adding_leaf_monotone_single :
  countAliases Scenario.single
  < countAliases (Document (Scenario.query
                    [Scenario.leafField "a";
                     Field (Some (mkName "x")) (Some (mkName "b")) None]))
  /\ calculateQueryComplexity Scenario.single 1
     <= calculateQueryComplexity Scenario.single_b 1.
Proof.
  split.
  - apply (adding_leaf_monotone (Some (mkName "x")) (Some (mkName "b"))
             Scenario.single).
    + apply (add_in_document _ [] []), add_in_operation.
      exact (add_here _ [Scenario.leafField "a"] []).
    + reflexivity.
    + reflexivity.
  - apply (adding_leaf_monotone None (Some (mkName "b"))
             Scenario.single Scenario.single_b).
    + apply (add_in_document _ [] []), add_in_operation.
      exact (add_here _ [Scenario.leafField "a"] []).
    + lia.
    + vm_compute. discriminate.
Defined.

Lemma calculateQueryComplexity_homogeneous_scenario_B :
  calculateQueryComplexity (Document Scenario.defsB) 3
  = 3 * calculateQueryComplexity (Document Scenario.defsB) 1.
Proof.
  apply (calculateQueryComplexity_homogeneous Scenario.defsB 3).
  split; vm_compute; discriminate.
Defined.

(** * Further properties of the analyzers *)

(** ** Helper lemmas *)

Lemma max_over_cases (base : Z) (l : list Z) :
  Spec.max_over base l = base \/ In (Spec.max_over base l) l.
Proof.
  induction l as [|x l IH]; simpl; [left; reflexivity|].
  destruct (Z.max_spec x (Spec.max_over base l)) as [[_ ->]|[_ ->]].
  - destruct IH as [IH|IH]; [left; exact IH|right; right; exact IH].
  - right. left. reflexivity.
Qed.

Lemma max_over_perm (base : Z) (l l' : list Z) :
  Permutation l l' -> Spec.max_over base l = Spec.max_over base l'.
Proof.
  induction 1 as [|x l l' _ IH|x y l|l l' l'' _ IH1 _ IH2]; simpl; lia.
Qed.

Lemma sum_over_perm (l l' : list Z) :
  Permutation l l' -> Spec.sum_over l = Spec.sum_over l'.
Proof.
  induction 1 as [|x l l' _ IH|x y l|l l' l'' _ IH1 _ IH2]; simpl; lia.
Qed.

Lemma sum_over_elem {B} (f : B -> Z) (l : list B) (x : B) :
  (forall y, In y l -> 0 <= f y) -> In x l -> f x <= Spec.sum_over (map f l).
Proof.
  induction l as [|y l IH]; intros Hpos Hin; simpl; [destruct Hin|].
  assert (0 <= Spec.sum_over (map f l))
    by (apply sum_over_nonneg; intros z Hz; apply Hpos; right; exact Hz).
  destruct Hin as [->|Hin].
  - lia.
  - pose proof (Hpos y (or_introl eq_refl)).
    assert (f x <= Spec.sum_over (map f l))
      by (apply IH; [intros z Hz; apply Hpos; right; exact Hz|exact Hin]).
    lia.
Qed.

Lemma selectionComplexity_nonneg sel m :
  0 <= m -> 0 <= Spec.selectionComplexity m sel.
Proof.
  intros Hm. destruct sel as [a n [nested|]|[nested|]|n]; simpl; try lia.
  - pose proof (selectionSetComplexity_nonneg nested (2 * m)). lia.
  - apply selectionSetComplexity_nonneg, Hm.
Qed.

Lemma calculateSelectionSetDepth_ge ss d : d <= calculateSelectionSetDepth ss d.
Proof.
  destruct ss as [selections]. rewrite calculateSelectionSetDepth_unfold.
  apply max_over_ge.
Qed.

Lemma calculateQueryDepth_ge node d : d <= calculateQueryDepth node d.
Proof.
  destruct node as [definitions|[ss|]|[ss|]|];
    [rewrite calculateQueryDepth_document; apply max_over_ge|simpl..]; try lia.
  - destruct (Z.gtb_spec (calculateSelectionSetDepth ss d) d); lia.
  - destruct (Z.gtb_spec (calculateSelectionSetDepth ss d) d); lia.
Qed.

(** Nesting is paid for geometrically: a selection set that reaches [k]
    levels below its own costs at least [m * (2 ^ k - 1)]. *)
Lemma selectionSetComplexity_pow ss :
  forall d m, 0 <= m ->
    m * (2 ^ (Spec.selectionSetDepth d ss - d) - 1)
    <= Spec.selectionSetComplexity m ss.
Proof.
  induction ss as [selections IH] using SelectionSet_nested_ind.
  intros d m Hm.
  rewrite selectionSetDepth_unfold, selectionSetComplexity_unfold.
  destruct (max_over_cases d (map (Spec.selectionDepth d) selections)) as [E|Hin].
  - rewrite E, Z.sub_diag. simpl.
    assert (0 <= Spec.sum_over (map (Spec.selectionComplexity m) selections)).
    { apply sum_over_nonneg. intros sel _. apply selectionComplexity_nonneg, Hm. }
    lia.
  - apply in_map_iff in Hin. destruct Hin as (sel & Esel & Hsel).
    rewrite <- Esel.
    transitivity (Spec.selectionComplexity m sel);
      [|apply sum_over_elem;
        [intros y _; apply selectionComplexity_nonneg, Hm|exact Hsel]].
    rewrite List.Forall_forall in IH. specialize (IH sel Hsel).
    destruct sel as [a n [nested|]|[nested|]|n]; simpl.
    + pose proof (selectionSetDepth_ge nested (d + 1)) as Hge.
      pose proof (IH nested eq_refl (d + 1) (2 * m) ltac:(lia)) as Hnested.
      replace (Spec.selectionSetDepth (d + 1) nested - d)
        with (Z.succ (Spec.selectionSetDepth (d + 1) nested - (d + 1))) by lia.
      rewrite Z.pow_succ_r by lia. lia.
    + replace (d + 1 - d) with 1 by lia. simpl. lia.
    + apply (IH nested eq_refl d m Hm).
    + rewrite Z.sub_diag. simpl. lia.
    + rewrite Z.sub_diag. simpl. lia.
Qed.

Lemma complexity_pow node :
  forall d m, 0 <= m ->
    m * (2 ^ (Spec.depth d node - d) - 1) <= Spec.complexity m node.
Proof.
  induction node as [definitions IH|[ss|]|[ss|]|] using Node_nested_ind;
    intros d m Hm; simpl;
    try (apply selectionSetComplexity_pow; exact Hm);
    try (rewrite Z.sub_diag; simpl; lia).
  destruct (max_over_cases d (map (Spec.depth d) definitions)) as [E|Hin].
  - rewrite E, Z.sub_diag. simpl.
    assert (0 <= Spec.sum_over (map (Spec.complexity m) definitions)).
    { apply sum_over_nonneg. intros def _. apply complexity_nonneg, Hm. }
    lia.
  - apply in_map_iff in Hin. destruct Hin as (def & Edef & Hdef).
    rewrite <- Edef. rewrite List.Forall_forall in IH.
    transitivity (Spec.complexity m def); [apply (IH def Hdef d m Hm)|].
    apply sum_over_elem; [intros y _; apply complexity_nonneg, Hm|exact Hdef].
Qed.

(** When the exact complexity fits in an [int], so does the depth, and
    both analyzers return the exact values. *)
Lemma exact_when_complexity_fits node :
  Spec.complexity 1 node <= GoInt.max_int ->
  calculateQueryDepth node 0 = Spec.depth 0 node
  /\ calculateQueryComplexity node 1 = Spec.complexity 1 node.
Proof.
  intros Hfit.
  pose proof (complexity_pow node 0 1 ltac:(lia)) as Hpow.
  pose proof (depth_ge node 0) as Hd.
  pose proof (complexity_nonneg node 1 ltac:(lia)) as Hc.
  rewrite Z.sub_0_r in Hpow.
  assert (Spec.depth 0 node < 2 ^ Spec.depth 0 node)
    by (apply Z.pow_gt_lin_r; lia).
  split.
  - apply calculateQueryDepth_spec; lia.
  - rewrite calculateQueryComplexity_spec. apply GoIntFacts.wrap_id.
    unfold GoInt.in_range, GoInt.min_int. lia.
Qed.

Lemma max_over_cons (base x : Z) (l : list Z) :
  Spec.max_over base (x :: l) = Z.max x (Spec.max_over base l).
Proof. reflexivity. Qed.

Lemma sum_over_cons (x : Z) (l : list Z) :
  Spec.sum_over (x :: l) = x + Spec.sum_over l.
Proof. reflexivity. Qed.

Lemma existsb_perm {B} (f : B -> bool) (l l' : list B) :
  Permutation l l' -> existsb f l = existsb f l'.
Proof.
  induction 1 as [|x l l' _ IH|x y l|l l' l'' _ IH1 _ IH2]; simpl.
  - reflexivity.
  - rewrite IH. reflexivity.
  - destruct (f x), (f y); reflexivity.
  - congruence.
Qed.

Lemma max_over_rebase (d b : Z) (l : list Z) :
  d <= b -> Spec.max_over b l = Z.max b (Spec.max_over d l).
Proof. intros H. induction l as [|x l IH]; simpl; lia. Qed.

Lemma selectionsIn_unfold selections :
  Spec.selectionsIn (mkSelectionSet selections)
  = flat_map (fun sel => sel :: match GetSelectionSet sel with
                                | Some nested => Spec.selectionsIn nested
                                | None => []
                                end) selections.
Proof.
  simpl. apply flat_map_ext. intros [a n [nested|]|[nested|]|n]; reflexivity.
Qed.

(** The alias count of a selection set, selection by selection. *)
Lemma countSelectionSetAliases_sum selections :
  countSelectionSetAliases (mkSelectionSet selections)
  = GoInt.wrap
      (Spec.sum_over
         (map (fun sel =>
                 Spec.countAliased
                   (sel :: match GetSelectionSet sel with
                           | Some nested => Spec.selectionsIn nested
                           | None => []
                           end)) selections)).
Proof.
  rewrite countSelectionSetAliases_spec, selectionsIn_unfold, countAliased_flat_map.
  reflexivity.
Qed.

Lemma countAliases_document definitions :
  countAliases (Document definitions)
  = GoInt.wrap
      (Spec.sum_over
         (map (fun def => Spec.countAliased (Spec.selectionsOf def)) definitions)).
Proof.
  rewrite countAliases_spec. unfold Spec.aliasCount. simpl.
  rewrite countAliased_flat_map. reflexivity.
Qed.

(** *** A fragment spread added to the tree *)

Lemma calculateSelectionSetDepth_AddSpreadIn n ss ss' :
  AddLeafIn (FragmentSpread n) ss ss' ->
  forall d, calculateSelectionSetDepth ss' d = calculateSelectionSetDepth ss d.
Proof.
  induction 1 as [before after|before after a n' ss ss' _ IH|before after ss ss' _ IH];
    intros d; rewrite !calculateSelectionSetDepth_unfold, !map_app; simpl.
  - rewrite !max_over_app. simpl.
    pose proof (max_over_ge d (map (depthOfSelection d) after)).
    f_equal. lia.
  - rewrite IH. reflexivity.
  - rewrite IH. reflexivity.
Qed.

Lemma calculateQueryDepth_AddSpread n node node' :
  AddLeaf (FragmentSpread n) node node' ->
  forall d, calculateQueryDepth node' d = calculateQueryDepth node d.
Proof.
  induction 1 as [ss ss' H|ss ss' H|before after def def' _ IH]; intros d.
  - simpl. rewrite (calculateSelectionSetDepth_AddSpreadIn _ _ _ H). reflexivity.
  - simpl. rewrite (calculateSelectionSetDepth_AddSpreadIn _ _ _ H). reflexivity.
  - rewrite !calculateQueryDepth_document, !map_app. simpl. rewrite IH. reflexivity.
Qed.

Lemma countAliased_AddSpreadIn n ss ss' :
  AddLeafIn (FragmentSpread n) ss ss' ->
  Spec.countAliased (Spec.selectionsIn ss') = Spec.countAliased (Spec.selectionsIn ss).
Proof.
  induction 1 as [before after|before after a n' ss ss' _ IH|before after ss ss' _ IH];
    simpl Spec.selectionsIn; rewrite !flat_map_app, !countAliased_app; simpl;
    rewrite ?countAliased_cons, ?countAliased_app, ?aliasedField_has_alias.
  - simpl. lia.
  - rewrite IH. lia.
  - rewrite IH. simpl. lia.
Qed.

Lemma countAliases_AddSpread n node node' :
  AddLeaf (FragmentSpread n) node node' ->
  countAliases node' = countAliases node.
Proof.
  intros H. rewrite !countAliases_spec. f_equal. unfold Spec.aliasCount.
  induction H as [ss ss' H|ss ss' H|before after def def' _ IH]; simpl.
  - apply (countAliased_AddSpreadIn _ _ _ H).
  - apply (countAliased_AddSpreadIn _ _ _ H).
  - rewrite !flat_map_app, !countAliased_app. simpl.
    rewrite ?countAliased_app, IH. reflexivity.
Qed.

Lemma hasIntrospectionInSelectionSet_AddSpreadIn n ss ss' :
  AddLeafIn (FragmentSpread n) ss ss' ->
  hasIntrospectionInSelectionSet ss' = hasIntrospectionInSelectionSet ss.
Proof.
  induction 1 as [before after|before after a n' ss ss' _ IH|before after ss ss' _ IH];
    rewrite !hasIntrospectionInSelectionSet_unfold, !existsb_app; simpl.
  - reflexivity.
  - rewrite IH. reflexivity.
  - rewrite IH. reflexivity.
Qed.

Lemma hasIntrospection_AddSpread n node node' :
  AddLeaf (FragmentSpread n) node node' ->
  hasIntrospection node' = hasIntrospection node.
Proof.
  induction 1 as [ss ss' H|ss ss' H|before after def def' _ IH]; simpl.
  - apply (hasIntrospectionInSelectionSet_AddSpreadIn _ _ _ H).
  - apply (hasIntrospectionInSelectionSet_AddSpreadIn _ _ _ H).
  - rewrite !existsb_app. simpl. rewrite IH. reflexivity.
Qed.

(** *** Any selection added to the tree *)

Lemma hasIntrospectionInSelectionSet_AddLeafIn leaf ss ss' :
  AddLeafIn leaf ss ss' ->
  hasIntrospectionInSelectionSet ss = true ->
  hasIntrospectionInSelectionSet ss' = true.
Proof.
  induction 1 as [before after|before after a n ss ss' _ IH|before after ss ss' _ IH];
    rewrite !hasIntrospectionInSelectionSet_unfold, !existsb_app; simpl;
    rewrite !orb_true_iff.
  - tauto.
  - intros [H|[[H|H]|H]]; auto.
  - intros [H|[H|H]]; auto.
Qed.

Lemma hasIntrospection_AddLeaf leaf node node' :
  AddLeaf leaf node node' ->
  hasIntrospection node = true -> hasIntrospection node' = true.
Proof.
  induction 1 as [ss ss' H|ss ss' H|before after def def' _ IH]; simpl.
  - apply (hasIntrospectionInSelectionSet_AddLeafIn _ _ _ H).
  - apply (hasIntrospectionInSelectionSet_AddLeafIn _ _ _ H).
  - rewrite !existsb_app. simpl. rewrite !orb_true_iff.
    intros [Hb|[Hd|Ha]]; auto.
Qed.

(** ** Properties *)

(** X1. The depth an analyzer returns is never below the depth it
    started from; from 0 it is never negative. *)
Theorem depth_never_below_start (node : Node) (ss : SelectionSet) (d : Z) :
  d <= calculateQueryDepth node d
  /\ d <= calculateSelectionSetDepth ss d
  /\ 0 <= calculateQueryDepth node 0.
Proof.
  split; [apply calculateQueryDepth_ge|split].
  - apply calculateSelectionSetDepth_ge.
  - apply calculateQueryDepth_ge.
Qed.

(** X2. Complexity grows geometrically with depth: for a document whose
    exact complexity at base weight 1 fits in an [int], the computed
    complexity is at least [2 ^ depth - 1]. *)
Theorem complexity_exponential_in_depth (definitions : list Node) :
  Spec.complexity 1 (Document definitions) <= GoInt.max_int ->
  2 ^ calculateQueryDepth (Document definitions) 0 - 1
  <= calculateQueryComplexity (Document definitions) 1.
Proof.
  intros Hfit.
  destruct (exact_when_complexity_fits _ Hfit) as [-> ->].
  pose proof (complexity_pow (Document definitions) 0 1 ltac:(lia)) as H.
  rewrite Z.sub_0_r in H. lia.
Qed.

(** X3. The complexity limit caps the depth below the depth limit: a
    document that ValidateGraphQLQuery allows (its exact complexity
    fitting in an [int]) has depth at most 7, so a document of depth 8,
    9 or 10 passes the depth check and is still rejected. *)
Theorem allowed_depth_at_most_seven {Schema : Type}
    (json : string -> option (gmap string json_value))
    (parse : string -> option (list Node))
    (q : string) (schema : option Schema) (definitions : list Node) :
  q <> EmptyString ->
  parse (Spec.queryText json q) = Some definitions ->
  Spec.complexity 1 (Document definitions) <= GoInt.max_int ->
  ValidateGraphQLQuery json parse q schema = None ->
  calculateQueryDepth (Document definitions) 0 <= 7.
Proof.
  intros Hq Hparse Hfit.
  rewrite ValidateGraphQLQuery_unfold, Hparse by exact Hq.
  unfold Spec.verdict.
  destruct (hasIntrospection _); [discriminate|].
  destruct (Z.gtb_spec (calculateQueryDepth (Document definitions) 0) 10);
    [discriminate|].
  destruct (Z.gtb_spec (countAliases (Document definitions)) 4); [discriminate|].
  destruct (Z.gtb_spec (calculateQueryComplexity (Document definitions) 1) 200)
    as [|Hc]; [discriminate|].
  intros _.
  destruct (exact_when_complexity_fits _ Hfit) as [Ed Ec].
  rewrite Ed. rewrite Ec in Hc.
  pose proof (complexity_pow (Document definitions) 0 1 ltac:(lia)) as Hpow.
  rewrite Z.sub_0_r in Hpow.
  pose proof (depth_ge (Document definitions) 0) as Hd.
  destruct (Z.le_gt_cases (Spec.depth 0 (Document definitions)) 7) as [|Hgt];
    [assumption|exfalso].
  assert (2 ^ 8 <= 2 ^ Spec.depth 0 (Document definitions))
    by (apply Z.pow_le_mono_r; lia).
  change (2 ^ 8) with 256 in *. lia.
Qed.

(** X4. Every error ValidateGraphQLQuery returns is one of the four
    rejections, carries the fixed limit of its check (10, 4 or 200) and
    an actual value above that limit. *)
Theorem rejection_carries_limit {Schema : Type}
    (json : string -> option (gmap string json_value))
    (parse : string -> option (list Node))
    (q : string) (schema : option Schema) (e : error) :
  ValidateGraphQLQuery json parse q schema = Some e ->
  e = IntrospectionRejected
  \/ (exists actual, e = DepthExceeded 10 actual /\ 10 < actual)
  \/ (exists actual, e = AliasLimitExceeded 4 actual /\ 4 < actual)
  \/ (exists actual, e = ComplexityExceeded 200 actual /\ 200 < actual).
Proof.
  destruct (String.eqb_spec q EmptyString) as [->|Hq]; [discriminate|].
  rewrite ValidateGraphQLQuery_unfold by exact Hq.
  destruct (parse _) as [definitions|]; [|discriminate].
  unfold Spec.verdict.
  destruct (hasIntrospection _); [intros [= <-]; auto|].
  destruct (Z.gtb_spec (calculateQueryDepth (Document definitions) 0) 10);
    [intros [= <-]; right; left; eauto|].
  destruct (Z.gtb_spec (countAliases (Document definitions)) 4);
    [intros [= <-]; right; right; left; eauto|].
  destruct (Z.gtb_spec (calculateQueryComplexity (Document definitions) 1) 200);
    [intros [= <-]; right; right; right; eauto|discriminate].
Qed.

(** X5. The order of the selections of a selection set, and of the
    definitions of a document, changes no analyzer's result. *)
Theorem analyzers_order_independent
    (selections selections' : list Selection) (definitions definitions' : list Node) :
  Permutation selections selections' ->
  Permutation definitions definitions' ->
  let ss := mkSelectionSet selections in
  let ss' := mkSelectionSet selections' in
  let doc := Document definitions in
  let doc' := Document definitions' in
  (forall d, calculateSelectionSetDepth ss d = calculateSelectionSetDepth ss' d)
  /\ countSelectionSetAliases ss = countSelectionSetAliases ss'
  /\ (forall m, calculateSelectionSetComplexity ss m
                = calculateSelectionSetComplexity ss' m)
  /\ hasIntrospectionInSelectionSet ss = hasIntrospectionInSelectionSet ss'
  /\ (forall d, calculateQueryDepth doc d = calculateQueryDepth doc' d)
  /\ countAliases doc = countAliases doc'
  /\ (forall m, calculateQueryComplexity doc m = calculateQueryComplexity doc' m)
  /\ hasIntrospection doc = hasIntrospection doc'.
Proof.
  intros Hs Hd ss ss' doc doc'. subst ss ss' doc doc'.
  repeat match goal with |- _ /\ _ => split end.
  - intros d. rewrite !calculateSelectionSetDepth_unfold.
    apply max_over_perm, Permutation_map, Hs.
  - rewrite !countSelectionSetAliases_sum. f_equal.
    apply sum_over_perm, Permutation_map, Hs.
  - intros m. rewrite !calculateSelectionSetComplexity_spec,
      !selectionSetComplexity_unfold. f_equal.
    apply sum_over_perm, Permutation_map, Hs.
  - rewrite !hasIntrospectionInSelectionSet_unfold. apply existsb_perm, Hs.
  - intros d. rewrite !calculateQueryDepth_document.
    apply max_over_perm, Permutation_map, Hd.
  - rewrite !countAliases_document. f_equal.
    apply sum_over_perm, Permutation_map, Hd.
  - intros m. rewrite !calculateQueryComplexity_spec. simpl. f_equal.
    apply sum_over_perm, Permutation_map, Hd.
  - simpl. apply existsb_perm, Hd.
Qed.

(** X6. An inline fragment is transparent: a selection set gives the
    same depth, alias count, complexity and introspection result as the
    one in which the fragment is replaced by its own selections. *)
Theorem inline_fragment_transparent (before inner after : list Selection) :
  let wrapped :=
    mkSelectionSet (before ++ InlineFragment (Some (mkSelectionSet inner)) :: after) in
  let flat := mkSelectionSet (before ++ inner ++ after) in
  (forall d, calculateSelectionSetDepth wrapped d = calculateSelectionSetDepth flat d)
  /\ countSelectionSetAliases wrapped = countSelectionSetAliases flat
  /\ (forall m, calculateSelectionSetComplexity wrapped m
                = calculateSelectionSetComplexity flat m)
  /\ hasIntrospectionInSelectionSet wrapped = hasIntrospectionInSelectionSet flat.
Proof.
  intros wrapped flat. subst wrapped flat.
  repeat match goal with |- _ /\ _ => split end.
  - intros d. rewrite !calculateSelectionSetDepth_unfold, !map_app, map_cons.
    change (depthOfSelection d (InlineFragment (Some (mkSelectionSet inner))))
      with (calculateSelectionSetDepth (mkSelectionSet inner) d).
    rewrite calculateSelectionSetDepth_unfold, !max_over_app, max_over_cons.
    f_equal.
    pose proof (max_over_ge d (map (depthOfSelection d) after)) as Hge.
    rewrite (max_over_rebase d _ _ Hge). lia.
  - rewrite !countSelectionSetAliases_sum, !map_app, map_cons.
    rewrite !sum_over_app, sum_over_cons.
    cbn [GetSelectionSet].
    rewrite countAliased_cons, selectionsIn_unfold, countAliased_flat_map.
    cbn [Spec.aliasedField]. f_equal; lia.
  - intros m. rewrite !calculateSelectionSetComplexity_spec,
      !selectionSetComplexity_unfold, !map_app, map_cons.
    rewrite !sum_over_app, sum_over_cons.
    change (Spec.selectionComplexity m (InlineFragment (Some (mkSelectionSet inner))))
      with (Spec.selectionSetComplexity m (mkSelectionSet inner)).
    rewrite selectionSetComplexity_unfold. f_equal; lia.
  - rewrite !hasIntrospectionInSelectionSet_unfold, !existsb_app.
    cbn [existsb].
    change (introspectionAt (InlineFragment (Some (mkSelectionSet inner))))
      with (hasIntrospectionInSelectionSet (mkSelectionSet inner)).
    rewrite hasIntrospectionInSelectionSet_unfold. reflexivity.
Qed.

(** X7. A fragment spread is not expanded: adding one to any selection
    set of a document changes neither the depth, nor the alias count,
    nor the introspection result, whatever fragment it names. *)
Theorem fragment_spread_not_counted (name : option Name) (doc doc' : Node) :
  AddLeaf (FragmentSpread name) doc doc' ->
  (forall d, calculateQueryDepth doc' d = calculateQueryDepth doc d)
  /\ countAliases doc' = countAliases doc
  /\ hasIntrospection doc' = hasIntrospection doc.
Proof.
  intros H. split; [|split].
  - apply (calculateQueryDepth_AddSpread _ _ _ H).
  - apply (countAliases_AddSpread _ _ _ H).
  - apply (hasIntrospection_AddSpread _ _ _ H).
Qed.

(** X8. Over two lists of definitions put in one document, the depth is
    the larger of the two depths, the alias count and the complexity
    are the [int] sums, and introspection is found when it is found in
    either. *)
Theorem analyzers_over_concatenation (defs1 defs2 : list Node) :
  (forall d, calculateQueryDepth (Document (defs1 ++ defs2)) d
             = Z.max (calculateQueryDepth (Document defs1) d)
                     (calculateQueryDepth (Document defs2) d))
  /\ countAliases (Document (defs1 ++ defs2))
     = GoInt.add (countAliases (Document defs1)) (countAliases (Document defs2))
  /\ (forall m, calculateQueryComplexity (Document (defs1 ++ defs2)) m
                = GoInt.add (calculateQueryComplexity (Document defs1) m)
                            (calculateQueryComplexity (Document defs2) m))
  /\ hasIntrospection (Document (defs1 ++ defs2))
     = hasIntrospection (Document defs1) || hasIntrospection (Document defs2).
Proof.
  repeat match goal with |- _ /\ _ => split end.
  - intros d. rewrite !calculateQueryDepth_document, map_app, max_over_app.
    pose proof (max_over_ge d (map (fun def => calculateQueryDepth def d) defs2)) as H.
    rewrite (max_over_rebase d _ _ H). lia.
  - rewrite !countAliases_document, map_app, sum_over_app.
    unfold GoInt.add. rewrite GoIntFacts.wrap_add_l, GoIntFacts.wrap_add_r.
    reflexivity.
  - intros m. rewrite !calculateQueryComplexity_spec. simpl.
    rewrite map_app, sum_over_app.
    unfold GoInt.add. rewrite GoIntFacts.wrap_add_l, GoIntFacts.wrap_add_r.
    reflexivity.
  - simpl. apply existsb_app.
Qed.

(** X9. Introspection cannot be hidden by adding selections: once a
    document is flagged, it stays flagged after any selection is added
    to any of its selection sets. *)
Theorem introspection_survives_additions (added : Selection) (doc doc' : Node) :
  AddLeaf added doc doc' ->
  hasIntrospection doc = true ->
  hasIntrospection doc' = true.
Proof. apply hasIntrospection_AddLeaf. Qed.

(** X10. Validating a JSON envelope is validating its query: when the
    body decodes to an object whose [query] is the non-empty string [q],
    and [q] itself is not such an envelope, the body and [q] get the same
    result. *)
Theorem envelope_validates_as_its_query {Schema : Type}
    (json : string -> option (gmap string json_value))
    (parse : string -> option (list Node))
    (body q : string) (object : gmap string json_value) (schema : option Schema) :
  body <> EmptyString ->
  q <> EmptyString ->
  json body = Some object ->
  object !! ("query" : string) = Some (JString q) ->
  Spec.queryText json q = q ->
  ValidateGraphQLQuery json parse body schema
  = ValidateGraphQLQuery json parse q schema.
Proof.
  intros Hbody Hq Hjson Hquery Hplain.
  rewrite !ValidateGraphQLQuery_unfold by assumption.
  rewrite Hplain. unfold Spec.queryText. rewrite Hjson, Hquery. reflexivity.
Qed.

(** *** The properties at concrete inputs *)

Lemma complexity_exponential_in_depth_seven_levels :
  2 ^ calculateQueryDepth (Document Sample.defs7) 0 - 1
  <= calculateQueryComplexity (Document Sample.defs7) 1.
Proof.
  apply (complexity_exponential_in_depth Sample.defs7).
  vm_compute. discriminate.
Defined.

Lemma allowed_depth_at_most_seven_attained :
  @ValidateGraphQLQuery unit Sample.noJSON Sample.parse7 Sample.text7 None = None
  /\ calculateQueryDepth (Document Sample.defs7) 0 = 7
  /\ calculateQueryDepth (Document Sample.defs7) 0 <= 7.
Proof.
  split; [reflexivity|split; [reflexivity|]].
  apply (allowed_depth_at_most_seven Sample.noJSON Sample.parse7 Sample.text7
           (@None unit) Sample.defs7).
  - discriminate.
  - reflexivity.
  - vm_compute. discriminate.
  - reflexivity.
Defined.

Lemma rejection_carries_limit_scenario_C :
  AliasLimitExceeded 4 5 = IntrospectionRejected
  \/ (exists actual, AliasLimitExceeded 4 5 = DepthExceeded 10 actual /\ 10 < actual)
  \/ (exists actual, AliasLimitExceeded 4 5 = AliasLimitExceeded 4 actual /\ 4 < actual)
  \/ (exists actual, AliasLimitExceeded 4 5 = ComplexityExceeded 200 actual
                     /\ 200 < actual).
Proof.
  apply (rejection_carries_limit Scenario.unmarshal Scenario.parse Scenario.textC
           (@None unit)).
  reflexivity.
Defined.

Lemma analyzers_order_independent_swap :
  calculateQueryComplexity
    (Document [OperationDefinition None;
               OperationDefinition
                 (Some (mkSelectionSet [Scenario.leafField "a"]))]) 1
  = calculateQueryComplexity
      (Document [OperationDefinition
                   (Some (mkSelectionSet [Scenario.leafField "a"]));
                 OperationDefinition None]) 1.
Proof.
  apply (analyzers_order_independent [] []
           [OperationDefinition None;
            OperationDefinition (Some (mkSelectionSet [Scenario.leafField "a"]))]
           [OperationDefinition (Some (mkSelectionSet [Scenario.leafField "a"]));
            OperationDefinition None]).
  - apply perm_nil.
  - apply perm_swap.
Defined.

Lemma fragment_spread_not_counted_single :
  countAliases
    (Document (Scenario.query [Scenario.leafField "a";
                               FragmentSpread (Some (mkName "F"))]))
  = countAliases Scenario.single.
Proof.
  apply (fragment_spread_not_counted (Some (mkName "F")) Scenario.single).
  apply (add_in_document _ [] []), add_in_operation.
  exact (add_here _ [Scenario.leafField "a"] []).
Defined.

Lemma introspection_survives_additions_scenario_D :
  hasIntrospection
    (Document (Scenario.query
                 [Scenario.compositeField "__schema"
                    [Scenario.compositeField "types" [Scenario.leafField "name"]];
                  Scenario.leafField "b"])) = true.
Proof.
  apply (introspection_survives_additions (Scenario.leafField "b")
           (Document Scenario.defsD)).
  - apply (add_in_document _ [] []), add_in_operation.
    exact (add_here _ [Scenario.compositeField "__schema"
                         [Scenario.compositeField "types" [Scenario.leafField "name"]]]
             []).
  - reflexivity.
Defined.

Lemma envelope_validates_as_its_query_seven_levels :
  @ValidateGraphQLQuery unit Sample.unmarshal7 Sample.parse7 Sample.body7 None
  = @ValidateGraphQLQuery unit Sample.unmarshal7 Sample.parse7 Sample.text7 None.
Proof.
  apply (envelope_validates_as_its_query Sample.unmarshal7 Sample.parse7
           Sample.body7 Sample.text7
           {[ ("query" : string) := JString Sample.text7 ]});
    try discriminate; reflexivity.
Defined.

(** * Properties of the resolver helpers and of the HTTP handler *)

Section HandlerFacts.

Context {float64 other Schema : Type}.
Variable int_of_float64 : float64 -> Z.
Variable json_Marshal : @any float64 other -> string + string.
Variable json_Unmarshal_into :
  string -> @Target other -> @Target other * option string.
Variable strings_EqualFold : string -> string -> bool.
Variable strings_TrimSpace : string -> string.
Variable json_Unmarshal : string -> option (gmap string json_value).
Variable parser_Parse : string -> option (list Node).
Variable http_PostFormQuery : Request -> string -> option string.

Abbreviation handle :=
  (@NewHTTP float64 other Schema json_Unmarshal parser_Parse http_PostFormQuery).
Abbreviation validate :=
  (@ValidateGraphQLQuery Schema json_Unmarshal parser_Parse).
Abbreviation rootObject :=
  (@New_RootObjectFn float64 other strings_EqualFold strings_TrimSpace).

(** X11. The handler answers with an error of its own only in two
    cases: a validation rejection needs a context that is not in DEBUG
    mode and enables validation, a GET or POST request and a non-empty
    query that ValidateGraphQLQuery rejects, whose message it sends; a
    read failure needs a POST request whose body cannot be read. *)
Theorem handler_errors_only_from_validation_or_read
    (graphCtx : option (@GraphContext float64 other)) (schema : option Schema)
    (r : Request) :
  (forall message,
     handle graphCtx schema r = Rejected message ->
     exists c q e,
       graphCtx = Some c /\ DEBUG c = false /\ EnableValidation c = true
       /\ (Method r = "POST" \/ Method r = "GET")
       /\ q <> EmptyString
       /\ validate q schema = Some e /\ message = Error e)
  /\ (handle graphCtx schema r = ReadFailed ->
      exists c, graphCtx = Some c /\ DEBUG c = false
                /\ Method r = "POST" /\ Body r = None).
Proof.
  unfold NewHTTP.
  destruct graphCtx as [c|]; simpl; [|split; [intros m|]; discriminate].
  destruct (DEBUG c) eqn:Hdebug; [split; [intros m|]; discriminate|].
  assert (forall (q : string) (message : string),
            (if EnableValidation c && negb (String.eqb q EmptyString)
             then match validate q schema with
                  | Some err => Rejected (Error err)
                  | None => Served (EnableSanitization c)
                  end
             else Served (EnableSanitization c)) = Rejected message ->
            EnableValidation c = true /\ q <> EmptyString
            /\ exists e, validate q schema = Some e /\ message = Error e) as Hval.
  { intros q message.
    destruct (EnableValidation c); simpl; [|discriminate].
    destruct (String.eqb_spec q EmptyString); simpl; [discriminate|].
    destruct (validate q schema) as [e|]; [|discriminate].
    intros [= <-]. eauto. }
  assert (forall q : string,
            (if EnableValidation c && negb (String.eqb q EmptyString)
             then match validate q schema with
                  | Some err => Rejected (Error err)
                  | None => Served (EnableSanitization c)
                  end
             else Served (EnableSanitization c)) <> ReadFailed) as Hread.
  { intros q. destruct (EnableValidation c && negb (String.eqb q EmptyString));
      [destruct (validate q schema)|]; discriminate. }
  destruct (String.eqb_spec (Method r) "POST") as [Hpost|Hpost].
  - split.
    + intros message H.
      destruct (Body r) as [bodyBytes|]; [|discriminate].
      match type of H with
      | match ?x with _ => _ end = _ => destruct x as [q|] eqn:Hq; [|discriminate]
      end.
      apply Hval in H. destruct H as (Hv & Hne & e & He & ->).
      exists c, q, e. auto 10.
    + intros H. exists c.
      destruct (Body r) as [bodyBytes|]; [exfalso|auto].
      match type of H with
      | match ?x with _ => _ end = _ => destruct x as [q|] eqn:Hq
      end.
      * exact (Hread q H).
      * destruct (String.eqb _ "application/x-www-form-urlencoded");
          [destruct (http_PostFormQuery r bodyBytes)
          |destruct (json_Unmarshal bodyBytes) as [m|];
           [destruct (m !! ("query" : string)) as [[]|]|]]; discriminate.
  - destruct (String.eqb_spec (Method r) "GET") as [Hget|Hget]; split.
    + intros message H. apply Hval in H. destruct H as (Hv & Hne & e & He & ->).
      exists c, (URLQuery r), e. auto 10.
    + intros H. exfalso. exact (Hread _ H).
    + intros message H. apply Hval in H. destruct H as (_ & Hne & _).
      contradiction.
    + intros H. exfalso. exact (Hread _ H).
Qed.

(** X12. What the handler lets through with validation on is within
    the limits: when a context that is not in DEBUG mode enables
    validation and the request carries the non-empty query [q] (in the
    URL of a GET, or as the [query] string of the JSON body or the
    [query] field of the form body of a POST), a served request whose
    query text parses has no introspection field, depth at most 10, at
    most 4 aliases and complexity at most 200. *)
Theorem served_query_within_limits
    (c : @GraphContext float64 other) (schema : option Schema)
    (r : Request) (q : string) (definitions : list Node) (sanitized : bool) :
  DEBUG c = false ->
  EnableValidation c = true ->
  (Method r = "GET" /\ URLQuery r = q)
  \/ (exists bodyBytes,
        Method r = "POST" /\ Body r = Some bodyBytes
        /\ ((Header_Get (Header r) "Content-Type"
             = "application/x-www-form-urlencoded"
             /\ http_PostFormQuery r bodyBytes = Some q)
            \/ (Header_Get (Header r) "Content-Type"
                <> "application/x-www-form-urlencoded"
                /\ exists object, json_Unmarshal bodyBytes = Some object
                                  /\ object !! ("query" : string) = Some (JString q)))) ->
  q <> EmptyString ->
  parser_Parse (Spec.queryText json_Unmarshal q) = Some definitions ->
  handle (Some c) schema r = Served sanitized ->
  let doc := Document definitions in
  hasIntrospection doc = false
  /\ calculateQueryDepth doc 0 <= 10
  /\ countAliases doc <= 4
  /\ calculateQueryComplexity doc 1 <= 200.
Proof.
  intros Hdebug Hval Hreq Hq Hparse.
  assert (handle (Some c) schema r
          = match validate q schema with
            | Some err => Rejected (Error err)
            | None => Served (EnableSanitization c)
            end) as ->.
  { unfold NewHTTP. rewrite Hdebug, Hval.
    destruct Hreq as [[Hm Hu]|(bodyBytes & Hm & Hb & Hbody)].
    - rewrite Hm, Hu. simpl.
      destruct (String.eqb_spec q EmptyString); [contradiction|reflexivity].
    - rewrite Hm, Hb. simpl.
      destruct Hbody as [[Hct Hform]|(Hct & object & Hjson & Hquery)].
      + rewrite Hct, Hform. simpl.
        destruct (String.eqb_spec q EmptyString); [contradiction|reflexivity].
      + destruct (String.eqb_spec (Header_Get (Header r) "Content-Type")
                    "application/x-www-form-urlencoded"); [contradiction|].
        rewrite Hjson, Hquery. simpl.
        destruct (String.eqb_spec q EmptyString); [contradiction|reflexivity]. }
  rewrite ValidateGraphQLQuery_unfold, Hparse by exact Hq.
  unfold Spec.verdict. cbv zeta. intros H.
  destruct (hasIntrospection _); [discriminate|].
  destruct (Z.gtb_spec (calculateQueryDepth (Document definitions) 0) 10);
    [discriminate|].
  destruct (Z.gtb_spec (countAliases (Document definitions)) 4); [discriminate|].
  destruct (Z.gtb_spec (calculateQueryComplexity (Document definitions) 1) 200);
    [discriminate|].
  auto.
Qed.

(** X13. Requests the handler serves without validating, even with
    validation enabled: every request whose method is neither GET nor
    POST, and every POST whose content type is not exactly
    [application/x-www-form-urlencoded] and whose body does not decode
    to a JSON object with a string [query]. *)
Theorem validation_skipped
    (c : @GraphContext float64 other) (schema : option Schema) (r : Request) :
  DEBUG c = false ->
  (Method r <> "POST" /\ Method r <> "GET")
  \/ (exists bodyBytes,
        Method r = "POST" /\ Body r = Some bodyBytes
        /\ Header_Get (Header r) "Content-Type" <> "application/x-www-form-urlencoded"
        /\ (json_Unmarshal bodyBytes = None
            \/ exists object,
                 json_Unmarshal bodyBytes = Some object
                 /\ forall q, object !! ("query" : string) <> Some (JString q))) ->
  handle (Some c) schema r = Served (EnableSanitization c).
Proof.
  intros Hdebug H. unfold NewHTTP. rewrite Hdebug.
  destruct H as [[Hpost Hget]|(bodyBytes & Hm & Hb & Hct & Hjson)].
  - destruct (String.eqb_spec (Method r) "POST"); [contradiction|].
    destruct (String.eqb_spec (Method r) "GET"); [contradiction|].
    simpl. rewrite andb_false_r. reflexivity.
  - rewrite Hm, Hb. simpl.
    destruct (String.eqb_spec (Header_Get (Header r) "Content-Type")
                "application/x-www-form-urlencoded"); [contradiction|].
    destruct Hjson as [->|(object & -> & Hno)].
    + simpl. rewrite andb_false_r. reflexivity.
    + destruct (object !! ("query" : string)) as [[| | |s| |]|] eqn:E;
        simpl; rewrite ?andb_false_r; try reflexivity.
      exfalso. exact (Hno s eq_refl).
Qed.

(** X14. The root value of a request holds at most the keys [token] and
    [details], whatever the context's own RootObjectFn returns; [token]
    is a non-empty string, the one the extractor gave; [details] is
    there only together with [token], and is what UserDetailsFn
    returned for that token without an error. *)
Theorem root_value_shape (graphCtx : @GraphContext float64 other) (r : Request) :
  let rootValue := rootObject graphCtx r in
  let token :=
    match TokenExtractorFn graphCtx with
    | Some f => f
    | None => ExtractBearerToken strings_EqualFold strings_TrimSpace
    end r in
  (forall key, is_Some (rootValue !! key) -> key = "token" \/ key = "details")
  /\ (forall v, rootValue !! ("token" : string) = Some v ->
                v = AnyString token /\ token <> EmptyString)
  /\ (forall details,
        rootValue !! ("details" : string) = Some details ->
        is_Some (rootValue !! ("token" : string))
        /\ exists f, UserDetailsFn graphCtx = Some f /\ f token = (details, None)).
Proof.
  intros rootValue token. subst rootValue. unfold New_RootObjectFn.
  cbv zeta. fold token.
  destruct (String.eqb_spec token EmptyString) as [Hempty|Hne].
  - repeat split; intros; simplify_map_eq; try (destruct H; simplify_map_eq).
  - destruct (UserDetailsFn graphCtx) as [f|] eqn:Hf;
      [destruct (f token) as [details [err|]] eqn:Hd|].
    + split; [|split].
      * intros key [v Hv].
        destruct (decide (key = "token")) as [->|Hk]; [auto|].
        rewrite lookup_insert_ne in Hv by congruence. simplify_map_eq.
      * intros v Hv. simplify_map_eq. auto.
      * intros d Hv. simplify_map_eq.
    + split; [|split].
      * intros key [v Hv].
        destruct (decide (key = "details")) as [->|Hk]; [auto|].
        rewrite lookup_insert_ne in Hv by congruence.
        destruct (decide (key = "token")) as [->|Hk']; [auto|].
        rewrite lookup_insert_ne in Hv by congruence. simplify_map_eq.
      * intros v Hv. simplify_map_eq. auto.
      * intros d Hv. simplify_map_eq. split; [eauto|].
        exists f. auto.
    + split; [|split].
      * intros key [v Hv].
        destruct (decide (key = "token")) as [->|Hk]; [auto|].
        rewrite lookup_insert_ne in Hv by congruence. simplify_map_eq.
      * intros v Hv. simplify_map_eq. auto.
      * intros d Hv. simplify_map_eq.
Qed.

(** X15. A resolver reads the token back with GetRootString: on the
    root value of a request, [GetRootString(p, "token")] returns the
    extracted token when it is not empty and the not-found error when
    it is. *)
Theorem GetRootString_reads_token
    (graphCtx : @GraphContext float64 other) (r : Request)
    (args : gmap string (@any float64 other)) :
  let p := mkResolveParams args (AnyMap (rootObject graphCtx r)) in
  let token :=
    match TokenExtractorFn graphCtx with
    | Some f => f
    | None => ExtractBearerToken strings_EqualFold strings_TrimSpace
    end r in
  (token <> EmptyString -> GetRootString p "token" = (token, None))
  /\ (token = EmptyString ->
      GetRootString p "token"
      = (EmptyString, Some "key 'token' not found in root value")).
Proof.
  intros p token. subst p. unfold GetRootString, New_RootObjectFn.
  cbv zeta. cbn [RootValue]. fold token. split; intros H.
  - destruct (String.eqb_spec token EmptyString); [contradiction|].
    destruct (UserDetailsFn graphCtx) as [f|];
      [destruct (f token) as [details [err|]]|]; simplify_map_eq; reflexivity.
  - rewrite H. reflexivity.
Qed.

(** X16. GetArg and GetRootInfo agree with the typed getters: when
    GetArgString, GetArgInt or GetArgBool returns a value without an
    error, GetArg stores the same value in a target of that type and
    returns no error, and likewise GetRootInfo after GetRootString;
    when the key is missing all of them report it. *)
Theorem generic_getters_agree_with_typed
    (p : @ResolveParams float64 other) (key : string) :
  (forall s old, GetArgString p key = (s, None) ->
                 GetArg int_of_float64 json_Marshal json_Unmarshal_into
                        p key (PtrString old) = (PtrString s, None))
  /\ (forall i old, GetArgInt int_of_float64 p key = (i, None) ->
                    GetArg int_of_float64 json_Marshal json_Unmarshal_into
                           p key (PtrInt old) = (PtrInt i, None))
  /\ (forall b old, GetArgBool p key = (b, None) ->
                    GetArg int_of_float64 json_Marshal json_Unmarshal_into
                           p key (PtrBool old) = (PtrBool b, None))
  /\ (forall s old, GetRootString p key = (s, None) ->
                    GetRootInfo int_of_float64 json_Marshal json_Unmarshal_into
                                p key (PtrString old) = (PtrString s, None))
  /\ (forall target,
        Args p !! key = None ->
        snd (GetArg int_of_float64 json_Marshal json_Unmarshal_into p key target)
        = snd (GetArgString p key)).
Proof.
  unfold GetArgString, GetArgInt, GetArgBool, GetArg, GetRootString, GetRootInfo.
  repeat match goal with |- _ /\ _ => split end.
  - intros s old. destruct (Args p !! key) as [[]|]; intros [= <-]; reflexivity.
  - intros i old. destruct (Args p !! key) as [[]|]; intros [= <-]; reflexivity.
  - intros b old. destruct (Args p !! key) as [[]|]; intros [= <-]; reflexivity.
  - intros s old. destruct (RootValue p) as [| | | | |m|]; try discriminate.
    destruct (m !! key) as [[]|]; intros [= <-]; reflexivity.
  - intros target ->. reflexivity.
Qed.

End HandlerFacts.

(** *** The properties at concrete requests *)

Lemma handler_errors_only_from_validation_or_read_scenario_C :
  exists c q e,
    Some SampleHTTP.production = Some c /\ DEBUG c = false
    /\ EnableValidation c = true
    /\ (Method (SampleHTTP.get Scenario.textC) = "POST"
        \/ Method (SampleHTTP.get Scenario.textC) = "GET")
    /\ q <> EmptyString
    /\ @ValidateGraphQLQuery unit Scenario.unmarshal Scenario.parse q None = Some e
    /\ Error (AliasLimitExceeded 4 5) = Error e.
Proof.
  apply (handler_errors_only_from_validation_or_read
           Scenario.unmarshal Scenario.parse SampleHTTP.noForm
           (Some SampleHTTP.production) (@None unit) (SampleHTTP.get Scenario.textC)).
  reflexivity.
Defined.

Lemma served_query_within_limits_scenario_A :
  hasIntrospection (Document Scenario.defsA) = false
  /\ calculateQueryDepth (Document Scenario.defsA) 0 <= 10
  /\ countAliases (Document Scenario.defsA) <= 4
  /\ calculateQueryComplexity (Document Scenario.defsA) 1 <= 200.
Proof.
  apply (served_query_within_limits
           Scenario.unmarshal Scenario.parse SampleHTTP.noForm
           SampleHTTP.production (@None unit) (SampleHTTP.get Scenario.textA)
           Scenario.textA Scenario.defsA true).
  - reflexivity.
  - reflexivity.
  - left. split; reflexivity.
  - discriminate.
  - reflexivity.
  - reflexivity.
Defined.

Lemma validation_skipped_put :
  SampleHTTP.handle (Some SampleHTTP.production) None (SampleHTTP.put Scenario.textD)
  = Served true.
Proof.
  apply (validation_skipped Scenario.unmarshal Scenario.parse SampleHTTP.noForm
           SampleHTTP.production (@None unit) (SampleHTTP.put Scenario.textD)).
  - reflexivity.
  - left. split; discriminate.
Defined.

Lemma root_value_shape_production :
  is_Some (New_RootObjectFn SampleHTTP.noFold SampleHTTP.noTrim SampleHTTP.production
             (SampleHTTP.get "{ hello }") !! ("token" : string))
  /\ exists f, UserDetailsFn SampleHTTP.production = Some f
               /\ f "abc" = (AnyString "user of abc", None).
Proof.
  apply (root_value_shape SampleHTTP.noFold SampleHTTP.noTrim SampleHTTP.production
           (SampleHTTP.get "{ hello }")).
  reflexivity.
Defined.

Lemma GetRootString_reads_token_production :
  GetRootString SampleHTTP.params "token" = ("abc", None).
Proof.
  apply (GetRootString_reads_token SampleHTTP.noFold SampleHTTP.noTrim
           SampleHTTP.production (SampleHTTP.get "{ hello }")).
  discriminate.
Defined.

Lemma generic_getters_agree_with_typed_name :
  GetArg SampleHTTP.truncate SampleHTTP.noMarshal SampleHTTP.noUnmarshal
         SampleHTTP.params "name" (PtrString EmptyString)
  = (PtrString "Ada", None).
Proof.
  apply (generic_getters_agree_with_typed SampleHTTP.truncate SampleHTTP.noMarshal
           SampleHTTP.noUnmarshal SampleHTTP.params "name").
  reflexivity.
Defined.

(** * Properties of the schema builder *)

Section NamedFields.

(** Filling a map from a list of named items, later items overwriting
    earlier ones of the same name. *)
Context {A V : Type}.
Variable name : A -> string.
Variable value : A -> V.

Abbreviation fill l m :=
  (fold_left (fun (fields : gmap string V) (item : A) =>
                <[name item := value item]> fields) l m).

Lemma fill_lookup_other (l : list A) (m : gmap string V) (n : string) :
  (forall item, In item l -> name item <> n) ->
  fill l m !! n = m !! n.
Proof.
  revert m. induction l as [|x l IH]; intros m H; simpl; [reflexivity|].
  rewrite IH by (intros item Hi; apply H; right; exact Hi).
  apply lookup_insert_ne, H. left. reflexivity.
Qed.

Lemma fill_lookup_last (before after : list A) (item : A) (m : gmap string V) :
  (forall later, In later after -> name later <> name item) ->
  fill (before ++ item :: after) m !! name item = Some (value item).
Proof.
  intros H. rewrite fold_left_app. simpl.
  rewrite fill_lookup_other by exact H.
  apply lookup_insert_eq.
Qed.

Lemma fill_lookup_is_Some (l : list A) (m : gmap string V) (n : string) :
  is_Some (fill l m !! n)
  <-> is_Some (m !! n) \/ exists item, In item l /\ name item = n.
Proof.
  revert m. induction l as [|x l IH]; intros m; simpl.
  - split; [auto|]. intros [H|(item & [] & _)]. exact H.
  - rewrite IH. clear IH. split.
    + intros [H|(item & Hin & Hn)].
      * destruct (decide (name x = n)) as [E|E].
        -- right. exists x. auto.
        -- rewrite lookup_insert_ne in H by exact E. auto.
      * right. exists item. auto.
    + intros [H|(item & [->|Hin] & Hn)].
      * left. destruct (decide (name x = n)) as [E|E].
        -- rewrite E, lookup_insert_eq. eauto.
        -- rewrite lookup_insert_ne by exact E. exact H.
      * left. rewrite Hn, lookup_insert_eq. eauto.
      * right. exists item. auto.
Qed.

Lemma fill_empty_iff (l : list A) : fill l ∅ = ∅ <-> l = [].
Proof.
  split; [|intros ->; reflexivity].
  destruct l as [|x l]; [reflexivity|]. intros H. exfalso.
  assert (is_Some (fill (x :: l) ∅ !! name x)) as [v Hv].
  { apply fill_lookup_is_Some. right. exists x. split; [left|]; reflexivity. }
  rewrite H, lookup_empty in Hv. discriminate.
Qed.

Lemma fill_size_positive (l : list A) :
  (0 <? size (fill l ∅))%nat = negb (match l with [] => true | _ => false end).
Proof.
  destruct (Nat.ltb_spec 0 (size (fill l ∅))) as [Hpos|Hzero].
  - destruct l; [|reflexivity]. simpl in Hpos. rewrite map_size_empty in Hpos. lia.
  - assert (fill l ∅ = ∅) as E by (apply map_size_empty_iff; lia).
    apply fill_empty_iff in E. subst l. reflexivity.
Qed.

End NamedFields.

Section SchemaBuilderFacts.

Context {GraphQLField GraphQLObject GraphQLSchema : Type}.
Variable graphql_NewObject : @ObjectConfig GraphQLField -> GraphQLObject.

(** X17. Build gives the schema a Query root exactly when the builder
    has a query field and a Mutation root exactly when it has a mutation
    field; with neither, the configuration is empty. *)
Theorem Build_roots_follow_fields (sb : @SchemaBuilder GraphQLField) :
  let config := Build_schemaConfig graphql_NewObject sb in
  (Query config = None <-> queryFields sb = [])
  /\ (Mutation config = None <-> mutationFields sb = [])
  /\ (forall object, Query config = Some object ->
        object = graphql_NewObject (mkObjectConfig "Query" (Build_queryFields sb)))
  /\ (forall object, Mutation config = Some object ->
        object = graphql_NewObject
                   (mkObjectConfig "Mutation" (Build_mutationFields sb))).
Proof.
  unfold Build_schemaConfig, Build_queryFields, Build_mutationFields. simpl.
  rewrite (fill_size_positive QueryField_Name QueryField_Serve (queryFields sb)).
  rewrite (fill_size_positive MutationField_Name MutationField_Serve (mutationFields sb)).
  destruct (queryFields sb), (mutationFields sb); simpl;
    repeat split; intros; try discriminate; try congruence.
Qed.

(** X18. Fields are entered by name, one after the other: the Query
    fields hold a name exactly when some query field has it, and when
    several fields share a name the last one in the list is the one
    kept.  The same holds for the Mutation fields. *)
Theorem Build_last_field_wins (sb : @SchemaBuilder GraphQLField) :
  (forall n, is_Some (Build_queryFields sb !! n)
             <-> exists field, In field (queryFields sb) /\ QueryField_Name field = n)
  /\ (forall before field after,
        queryFields sb = before ++ field :: after ->
        (forall later, In later after ->
                       QueryField_Name later <> QueryField_Name field) ->
        Build_queryFields sb !! QueryField_Name field = Some (QueryField_Serve field))
  /\ (forall n, is_Some (Build_mutationFields sb !! n)
                <-> exists field, In field (mutationFields sb)
                                  /\ MutationField_Name field = n)
  /\ (forall before field after,
        mutationFields sb = before ++ field :: after ->
        (forall later, In later after ->
                       MutationField_Name later <> MutationField_Name field) ->
        Build_mutationFields sb !! MutationField_Name field
        = Some (MutationField_Serve field)).
Proof.
  unfold Build_queryFields, Build_mutationFields.
  split; [|split; [|split]].
  - intros n.
    rewrite (fill_lookup_is_Some QueryField_Name QueryField_Serve).
    rewrite lookup_empty. split; [intros [[v Hv]|H]; [discriminate|exact H]|auto].
  - intros before field after -> H.
    apply (fill_lookup_last QueryField_Name QueryField_Serve), H.
  - intros n.
    rewrite (fill_lookup_is_Some MutationField_Name MutationField_Serve).
    rewrite lookup_empty. split; [intros [[v Hv]|H]; [discriminate|exact H]|auto].
  - intros before field after -> H.
    apply (fill_lookup_last MutationField_Name MutationField_Serve), H.
Qed.

End SchemaBuilderFacts.

(** *** The builder at a concrete field list *)

Lemma Build_roots_follow_fields_sample :
  Query (Build_schemaConfig (fun config : @ObjectConfig string => config)
           SampleBuilder.builder) <> None
  /\ Mutation (Build_schemaConfig (fun config : @ObjectConfig string => config)
                 SampleBuilder.builder) = None.
Proof.
  destruct (Build_roots_follow_fields (fun config : @ObjectConfig string => config)
              SampleBuilder.builder) as (Hq & Hm & _).
  split.
  - intros E. apply Hq in E. discriminate E.
  - apply Hm. reflexivity.
Defined.

Lemma Build_last_field_wins_sample :
  Build_queryFields SampleBuilder.builder !! ("user" : string)
  = Some "resolveUserNew".
Proof.
  destruct (Build_last_field_wins SampleBuilder.builder) as (_ & H & _).
  apply (H [SampleBuilder.userOld; SampleBuilder.hello] SampleBuilder.userNew []).
  - reflexivity.
  - intros later [].
Defined.

(** * Properties of JSONTime *)

Section JSONTimeFacts.

Context {Time : Type}.
Variable time_Format_RFC3339 : Time -> string.
Variable time_Parse_quoted_RFC3339 : string -> Time + string.
Variable json_Unmarshal_ints : string -> list Z + string.
Variable time_Date : Z -> Z -> Z -> Z -> Z -> Z -> Z -> Time.

Abbreviation unmarshal :=
  (UnmarshalJSON time_Parse_quoted_RFC3339 json_Unmarshal_ints time_Date).

(** The seven numbers UnmarshalJSON reads off an array: its first seven
    entries, missing ones counting as 0. *)
Abbreviation components timeArray := (firstn 7 (timeArray ++ repeat 0 7)).

Lemma components_nth (timeArray : list Z) (i : nat) :
  (i < 7)%nat ->
  nth i (components timeArray) 0
  = if (i <? length timeArray)%nat then nth i timeArray 0 else 0.
Proof.
  intros Hi. rewrite nth_firstn.
  destruct (Nat.ltb_spec i 7); [|lia].
  destruct (Nat.ltb_spec i (length timeArray)).
  - apply app_nth1. assumption.
  - rewrite app_nth2 by assumption. apply nth_repeat.
Qed.

Lemma UnmarshalJSON_array (t : Time) (data : string) (timeArray : list Z) :
  data <> "null" ->
  (exists first rest, data = String first rest /\ first <> "034"%char) ->
  json_Unmarshal_ints data = inl timeArray ->
  unmarshal t data
  = if (length timeArray <? 3)%nat
    then Returned t (Some (InvalidTimeArray timeArray))
    else let c := components timeArray in
         Returned (time_Date (nth 0 c 0) (nth 1 c 0) (nth 2 c 0) (nth 3 c 0)
                             (nth 4 c 0) (nth 5 c 0) (nth 6 c 0)) None.
Proof.
  intros Hnull (first & rest & -> & Hfirst) Hdecode. unfold UnmarshalJSON.
  destruct (String.eqb_spec (String first rest) "null"); [contradiction|].
  destruct (Ascii.eqb_spec first "034"%char); [contradiction|].
  rewrite Hdecode.
  destruct (Nat.ltb_spec (length timeArray) 3) as [|Hlen]; [reflexivity|].
  cbv zeta. rewrite !components_nth by lia.
  destruct (Nat.ltb_spec 0 (length timeArray)); [|lia].
  destruct (Nat.ltb_spec 1 (length timeArray)); [|lia].
  destruct (Nat.ltb_spec 2 (length timeArray)); [|lia].
  reflexivity.
Qed.

(** X19. An array of fewer than three numbers is refused and leaves the
    time untouched.  Of a longer array only the first seven numbers
    count, missing ones being 0: two arrays that agree on them decode
    to the same time, so trailing zeros may be left out and numbers
    after the seventh are ignored. *)
Theorem UnmarshalJSON_array_defaults (t : Time) (data data' : string)
    (timeArray timeArray' : list Z) :
  data <> "null" -> data' <> "null" ->
  (exists first rest, data = String first rest /\ first <> "034"%char) ->
  (exists first rest, data' = String first rest /\ first <> "034"%char) ->
  json_Unmarshal_ints data = inl timeArray ->
  json_Unmarshal_ints data' = inl timeArray' ->
  ((length timeArray < 3)%nat ->
   unmarshal t data = Returned t (Some (InvalidTimeArray timeArray)))
  /\ ((3 <= length timeArray)%nat -> (3 <= length timeArray')%nat ->
      components timeArray = components timeArray' ->
      unmarshal t data = unmarshal t data'
      /\ exists parsed, unmarshal t data = Returned parsed None).
Proof.
  intros Hn Hn' Hf Hf' Hd Hd'.
  rewrite (UnmarshalJSON_array t data timeArray Hn Hf Hd).
  rewrite (UnmarshalJSON_array t data' timeArray' Hn' Hf' Hd').
  split.
  - intros Hlen. destruct (Nat.ltb_spec (length timeArray) 3); [reflexivity|lia].
  - intros Hlen Hlen' Hc.
    destruct (Nat.ltb_spec (length timeArray) 3); [lia|].
    destruct (Nat.ltb_spec (length timeArray') 3); [lia|].
    cbv zeta. rewrite Hc. split; [reflexivity|eauto].
Qed.

(** X20. What MarshalJSON writes is read back through the string
    branch: UnmarshalJSON on it neither treats it as [null], nor as an
    array, nor panics, and returns what time.Parse makes of it. *)
Theorem UnmarshalJSON_of_MarshalJSON (t0 t : Time) :
  unmarshal t0 (fst (MarshalJSON time_Format_RFC3339 t))
  = match time_Parse_quoted_RFC3339 (fst (MarshalJSON time_Format_RFC3339 t)) with
    | inl parsed => Returned parsed None
    | inr err => Returned t0 (Some (ParseError err))
    end
  /\ snd (MarshalJSON time_Format_RFC3339 t) = None.
Proof.
  split; [|reflexivity].
  unfold MarshalJSON, UnmarshalJSON. cbn [fst].
  change (doubleQuote +:+ time_Format_RFC3339 t +:+ doubleQuote)
    with (String "034"%char (time_Format_RFC3339 t +:+ doubleQuote)).
  destruct (String.eqb_spec
              (String "034"%char (time_Format_RFC3339 t +:+ doubleQuote)) "null");
    [discriminate|].
  reflexivity.
Qed.

End JSONTimeFacts.

Lemma UnmarshalJSON_array_defaults_sample :
  UnmarshalJSON SampleBuilder.noParse SampleBuilder.ints SampleBuilder.date
                [] "[2024,1,15]"
  = UnmarshalJSON SampleBuilder.noParse SampleBuilder.ints SampleBuilder.date
                  [] "[2024,1,15,0,0]".
Proof.
  apply (UnmarshalJSON_array_defaults SampleBuilder.noParse SampleBuilder.ints
           SampleBuilder.date [] "[2024,1,15]" "[2024,1,15,0,0]"
           [2024; 1; 15] [2024; 1; 15; 0; 0]);
    try discriminate; try reflexivity;
    try (eexists _, _; split; [reflexivity|discriminate]);
    simpl; lia.
Defined.

(** * Properties of the message sanitizer *)

Lemma append_nil (s : string) : EmptyString +:+ s = s.
Proof. reflexivity. Qed.

Lemma append_cons (c : ascii) (a b : string) :
  String c a +:+ b = String c (a +:+ b).
Proof. reflexivity. Qed.

Lemma append_assoc_string (a b c : string) : (a +:+ b) +:+ c = a +:+ (b +:+ c).
Proof.
  induction a as [|x a IH]; rewrite ?append_nil, ?(append_cons x); [reflexivity|].
  rewrite IH. reflexivity.
Qed.

Lemma length_append_string (a b : string) :
  String.length (a +:+ b) = (String.length a + String.length b)%nat.
Proof.
  induction a as [|x a IH]; rewrite ?append_nil, ?(append_cons x); simpl;
    [reflexivity|].
  rewrite IH. reflexivity.
Qed.

Lemma stripPrefix_append (p s : string) : stripPrefix p (p +:+ s) = Some s.
Proof.
  induction p as [|a p IH]; rewrite ?append_nil, ?(append_cons a); simpl;
    [reflexivity|].
  rewrite Ascii.eqb_refl. exact IH.
Qed.

Lemma suggestionLength_other_start (c : ascii) (rest : string) :
  Ascii.eqb c "D"%char = false -> suggestionLength (String c rest) = None.
Proof.
  intros H. unfold suggestionLength.
  change suggestionStart with (String "D"%char ("id you mean " +:+ doubleQuote)).
  cbn [stripPrefix]. rewrite Ascii.eqb_sym, H. reflexivity.
Qed.

Lemma dropSuggestions_without_D (s : string) :
  without "D"%char s = true -> dropSuggestions 0 s = s.
Proof.
  induction s as [|c s IH]; simpl; [reflexivity|].
  intros H. apply andb_true_iff in H. destruct H as [Hc Hs].
  apply negb_true_iff in Hc.
  rewrite (suggestionLength_other_start c s Hc), IH by exact Hs. reflexivity.
Qed.

Lemma dropSuggestions_prefix_without_D (p s : string) :
  without "D"%char p = true ->
  dropSuggestions 0 (p +:+ s) = p +:+ dropSuggestions 0 s.
Proof.
  induction p as [|c p IH]; rewrite ?append_nil, ?(append_cons c); simpl;
    [reflexivity|].
  intros H. apply andb_true_iff in H. destruct H as [Hc Hp].
  apply negb_true_iff in Hc.
  rewrite (suggestionLength_other_start c _ Hc), IH by exact Hp. reflexivity.
Qed.

Lemma dropSuggestions_skip (s1 s2 : string) :
  dropSuggestions (String.length s1) (s1 +:+ s2) = dropSuggestions 0 s2.
Proof.
  induction s1 as [|c s1 IH]; rewrite ?append_nil, ?(append_cons c); simpl;
    [reflexivity|exact IH].
Qed.

Lemma without_append (c : ascii) (a b : string) :
  without c (a +:+ b) = without c a && without c b.
Proof.
  induction a as [|x a IH]; rewrite ?append_nil, ?(append_cons x); simpl;
    [reflexivity|].
  rewrite IH, andb_assoc. reflexivity.
Qed.

(** A name closed by a double quote and a question mark is read in full. *)
Lemma nameAndEnd_match (n q : string) (seen : bool) :
  without "034"%char n = true ->
  seen = true \/ n <> EmptyString ->
  nameAndEnd seen (n +:+ doubleQuote +:+ "?" +:+ q)
  = Some (String.length n + 2)%nat.
Proof.
  revert seen. induction n as [|c n IH]; intros seen Hn Hseen;
    rewrite ?append_nil, ?(append_cons c); simpl.
  - destruct Hseen as [->|H]; [reflexivity|contradiction].
  - apply andb_true_iff in Hn. destruct Hn as [Hc Hn].
    apply negb_true_iff in Hc. rewrite Hc.
    rewrite (IH true Hn (or_introl eq_refl)). reflexivity.
Qed.

(** A name closed by a double quote that no question mark follows is
    no match. *)
Lemma nameAndEnd_no_match (n rest : string) (seen : bool) :
  without "034"%char n = true ->
  (forall r, rest <> String "?"%char r) ->
  nameAndEnd seen (n +:+ doubleQuote +:+ rest) = None.
Proof.
  revert seen. induction n as [|c n IH]; intros seen Hn Hrest.
  - rewrite append_nil.
    change (doubleQuote +:+ rest) with (String "034"%char rest). simpl.
    destruct seen; [|reflexivity].
    destruct rest as [|d r]; [reflexivity|].
    destruct (Ascii.eqb_spec d "?"%char) as [->|]; [|reflexivity].
    exfalso. exact (Hrest r eq_refl).
  - rewrite (append_cons c). simpl in *.
    apply andb_true_iff in Hn. destruct Hn as [Hc Hn].
    apply negb_true_iff in Hc. rewrite Hc.
    rewrite (IH true Hn Hrest). reflexivity.
Qed.

Lemma collapse_normal (s : string) :
  forall inRun,
    plainSpaces (collapse inRun s) = true
    /\ doubleSpace (collapse inRun s) = false
    /\ (inRun = true -> startsWithSpace (collapse inRun s) = false).
Proof.
  induction s as [|c s IH]; intros inRun; simpl; [auto|].
  destruct (isRegexpSpace c) eqn:Hc.
  - destruct inRun.
    + apply IH.
    + destruct (IH true) as (Hp & Hd & Hs). specialize (Hs eq_refl).
      split; [|split; [|discriminate]].
      * simpl. exact Hp.
      * simpl. destruct (collapse true s) as [|d r]; [reflexivity|].
        simpl in Hs. rewrite Hs. simpl. exact Hd.
  - destruct (IH false) as (Hp & Hd & _).
    assert (Ascii.eqb c " "%char = false) as Hsp.
    { unfold isRegexpSpace in Hc. apply orb_false_iff in Hc. apply Hc. }
    split; [|split].
    + simpl. rewrite Hc. simpl. exact Hp.
    + simpl. destruct (collapse false s) as [|d r]; [reflexivity|].
      rewrite Hsp. simpl. exact Hd.
    + intros _. simpl. exact Hsp.
Qed.

Lemma collapse_fixed (t : string) :
  forall inRun,
    plainSpaces t = true -> doubleSpace t = false ->
    (inRun = true -> startsWithSpace t = false) ->
    collapse inRun t = t.
Proof.
  induction t as [|c t IH]; intros inRun Hp Hd Hs; simpl; [reflexivity|].
  simpl in Hp. apply andb_true_iff in Hp. destruct Hp as [Hc Hp].
  assert (doubleSpace t = false /\ (Ascii.eqb c " "%char = true ->
                                    startsWithSpace t = false)) as [Hd' Hnext].
  { simpl in Hd. destruct t as [|d r]; [auto|].
    apply orb_false_iff in Hd. destruct Hd as [Hcd Hd]. split; [exact Hd|].
    intros Hsp. rewrite Hsp in Hcd. simpl in *. exact Hcd. }
  destruct (isRegexpSpace c) eqn:Hspace.
  - simpl in Hc.
    destruct inRun; [specialize (Hs eq_refl); simpl in Hs; congruence|].
    apply Ascii.eqb_eq in Hc. subst c.
    rewrite (IH true Hp Hd' (fun _ => Hnext eq_refl)). reflexivity.
  - rewrite (IH false Hp Hd'); [reflexivity|discriminate].
Qed.

(** X21. A suggestion naming one field is removed: in a message made of
    a text without capital D, a suggestion (the words Did you mean, a
    name between double quotes, a question mark) and any rest, the first
    step drops the suggestion and goes on with the rest. *)
Theorem single_suggestion_removed (before name rest : string) :
  without "D"%char before = true ->
  without "034"%char name = true ->
  name <> EmptyString ->
  removeSuggestions
    (before +:+ suggestionStart +:+ name +:+ doubleQuote +:+ "?" +:+ rest)
  = before +:+ removeSuggestions rest.
Proof.
  intros Hbefore Hname Hne. unfold removeSuggestions.
  rewrite (dropSuggestions_prefix_without_D _ _ Hbefore). f_equal.
  assert (suggestionLength
            (suggestionStart +:+ name +:+ doubleQuote +:+ "?" +:+ rest)
          = Some (String.length suggestionStart + (String.length name + 2))%nat) as Hlen.
  { unfold suggestionLength. rewrite stripPrefix_append.
    rewrite (nameAndEnd_match name rest false Hname (or_intror Hne)). reflexivity. }
  pose proof (dropSuggestions_skip
                (suggestionStart +:+ name +:+ doubleQuote +:+ "?") rest) as Hskip.
  rewrite !append_assoc_string in Hskip.
  assert (String.length (suggestionStart +:+ name +:+ doubleQuote +:+ "?")
          = (String.length suggestionStart + (String.length name + 2))%nat) as Hl.
  { rewrite !length_append_string. reflexivity. }
  rewrite Hl in Hskip. rewrite <- Hskip. clear Hskip Hl.
  remember (suggestionStart +:+ name +:+ doubleQuote +:+ "?" +:+ rest) as s eqn:Es.
  destruct s as [|c s']; [discriminate Es|].
  cbn [dropSuggestions]. rewrite Hlen.
  change (String.length suggestionStart + (String.length name + 2))%nat
    with (S (13 + (String.length name + 2)))%nat.
  reflexivity.
Qed.

(** X22. A suggestion that lists several names is left in place: when
    the double quote closing the first name is not followed by a
    question mark, and no capital D occurs elsewhere in the message,
    the first step returns the message unchanged. *)
Theorem list_of_suggestions_kept (before name rest : string) :
  without "D"%char before = true ->
  without "D"%char name = true ->
  without "D"%char rest = true ->
  without "034"%char name = true ->
  (forall r, rest <> String "?"%char r) ->
  removeSuggestions (before +:+ suggestionStart +:+ name +:+ doubleQuote +:+ rest)
  = before +:+ suggestionStart +:+ name +:+ doubleQuote +:+ rest.
Proof.
  intros Hbefore HnameD Hrest Hname Hnext. unfold removeSuggestions.
  rewrite (dropSuggestions_prefix_without_D _ _ Hbefore). f_equal.
  assert (suggestionLength (suggestionStart +:+ name +:+ doubleQuote +:+ rest) = None)
    as Hlen.
  { unfold suggestionLength. rewrite stripPrefix_append.
    rewrite (nameAndEnd_no_match name rest false Hname Hnext). reflexivity. }
  remember (suggestionStart +:+ name +:+ doubleQuote +:+ rest) as s eqn:Es.
  destruct s as [|c s']; [discriminate Es|].
  cbn [dropSuggestions]. rewrite Hlen.
  change suggestionStart
    with (String "D"%char ("id you mean " +:+ doubleQuote)) in Es.
  rewrite append_cons in Es. injection Es as -> ->.
  rewrite dropSuggestions_without_D; [reflexivity|].
  rewrite !without_append, HnameD, Hrest. reflexivity.
Qed.

(** X23. After the second step the only white space left is the plain
    space, no two of them are adjacent, and applying the step again
    changes nothing. *)
Theorem collapseSpaces_normal_form (s : string) :
  plainSpaces (collapseSpaces s) = true
  /\ doubleSpace (collapseSpaces s) = false
  /\ collapseSpaces (collapseSpaces s) = collapseSpaces s.
Proof.
  unfold collapseSpaces.
  destruct (collapse_normal s false) as (Hp & Hd & _).
  split; [exact Hp|split; [exact Hd|]].
  apply collapse_fixed; [exact Hp|exact Hd|discriminate].
Qed.

Lemma single_suggestion_removed_sample :
  removeSuggestions SampleMessage.one
  = "Cannot query field " +:+ doubleQuote +:+ "nme" +:+ doubleQuote +:+ " on type "
    +:+ doubleQuote +:+ "User" +:+ doubleQuote +:+ ". ".
Proof.
  apply (single_suggestion_removed
           ("Cannot query field " +:+ doubleQuote +:+ "nme" +:+ doubleQuote
            +:+ " on type " +:+ doubleQuote +:+ "User" +:+ doubleQuote +:+ ". ")
           "name" EmptyString).
  - reflexivity.
  - reflexivity.
  - discriminate.
Defined.

Lemma list_of_suggestions_kept_sample :
  removeSuggestions SampleMessage.two = SampleMessage.two.
Proof.
  apply (list_of_suggestions_kept
           ("Cannot query field " +:+ doubleQuote +:+ "nme" +:+ doubleQuote
            +:+ " on type " +:+ doubleQuote +:+ "User" +:+ doubleQuote +:+ ". ")
           "name"
           (" or " +:+ doubleQuote +:+ "nmae" +:+ doubleQuote +:+ "?")).
  - reflexivity.
  - reflexivity.
  - reflexivity.
  - reflexivity.
  - intros r. discriminate.
Defined.

(** * The default token extractor *)

Section TokenFacts.

Context {float64 other : Type}.
Variable strings_EqualFold : string -> string -> bool.
Variable strings_TrimSpace : string -> string.

(** X24. With the default extractor, a request whose Authorization
    header is missing, empty or at most seven bytes long (the bare
    scheme [Bearer ] for one) yields no token, and its root value is
    empty: UserDetailsFn is not consulted. *)
Theorem short_header_gives_empty_root
    (graphCtx : @GraphContext float64 other) (r : Request) :
  TokenExtractorFn graphCtx = None ->
  (String.length (Header_Get (Header r) "Authorization") <= 7)%nat ->
  ExtractBearerToken strings_EqualFold strings_TrimSpace r = EmptyString
  /\ New_RootObjectFn strings_EqualFold strings_TrimSpace graphCtx r = ∅.
Proof.
  intros Hdefault Hshort.
  assert (ExtractBearerToken strings_EqualFold strings_TrimSpace r = EmptyString) as E.
  { unfold ExtractBearerToken. cbv zeta.
    destruct (String.eqb (Header_Get (Header r) "Authorization") EmptyString);
      [reflexivity|].
    change (String.length bearerPrefix) with 7%nat.
    destruct (Nat.ltb_spec 7 (String.length (Header_Get (Header r) "Authorization")));
      [lia|reflexivity]. }
  split; [exact E|].
  unfold New_RootObjectFn. cbv zeta. rewrite Hdefault, E. reflexivity.
Qed.

End TokenFacts.

Lemma short_header_gives_empty_root_bare_scheme :
  New_RootObjectFn SampleHTTP.noFold SampleHTTP.noTrim
    (mkGraphContext false None None (Some SampleHTTP.lookupUser) true true)
    (mkRequest "GET" {[ ("Authorization" : string) := ["Bearer "] ]} None
               EmptyString)
  = ∅.
Proof.
  apply (short_header_gives_empty_root SampleHTTP.noFold SampleHTTP.noTrim
           (mkGraphContext false None None (Some SampleHTTP.lookupUser) true true)
           (mkRequest "GET" {[ ("Authorization" : string) := ["Bearer "] ]} None
                      EmptyString)).
  - reflexivity.
  - vm_compute. lia.
Defined.
